(** * Lab-report rebranding pipeline: job queue, page composition, worker

  A shallow embedding of [queue_db.py], [rebrand_folder_app.py] and
  [worker.py], followed by the properties of the job store, of the page
  composition engine and of the worker's finalisation step. *)

From Stdlib Require Import ZArith Lia.
From stdpp Require Import gmap strings list sorting.

(** ** queue_db.py: the [jobs] table and its transactions *)

Module QueueDB.

Local Open Scope Z_scope.

(** The values the code ever writes into the [status] column. *)
Inductive job_status := pending | processing | completed | failed.

#[global] Instance job_status_eq_dec : EqDecision job_status.
Proof. solve_decision. Defined.

(** One row of [jobs].  Timestamps are seconds on the UTC clock: SQLite
    stores [CURRENT_TIMESTAMP] as [YYYY-MM-DD HH:MM:SS] text, whose
    lexicographic order is the order of the instants.  [payload] is the
    JSON object [add_job] serialised, kept in parsed form. *)
Record job := Job {
  id : Z;
  uid : Z;
  tenant_id : option string;
  job_type : string;
  payload : gmap string string;
  status : job_status;
  retry_count : Z;
  error : option string;
  created_at : Z;
  updated_at : Z
}.

(** The table, rows in rowid order.  Every operation below is the
    effect of its transaction when the store answers; when the connection
    or a statement fails the code logs, rolls back and returns [None] or
    nothing, and the table stays as it was. *)
Definition table := list job.

(** The dictionary [get_next_job] hands to the worker. *)
Record job_dict := JobDict {
  d_id : Z;
  d_uid : Z;
  d_job_type : string;
  d_payload : gmap string string;
  d_retry_count : Z
}.

Definition dict_of_row (row : job) : job_dict :=
  {| d_id := id row; d_uid := uid row; d_job_type := job_type row;
     d_payload := payload row; d_retry_count := retry_count row |}.

(** [UPDATE jobs SET ... WHERE cond]: every row satisfying [cond] is
    rewritten by [set], the others stay. *)
Definition sql_update (cond : job -> bool) (set : job -> job) (db : table)
  : table :=
  map (fun r => if cond r then set r else r) db.

(** [SELECT ... WHERE cond] followed by [fetchone]. *)
Definition sql_select_one (cond : job -> bool) (db : table) : option job :=
  List.find cond db.

(** [INSERT INTO jobs (uid, tenant_id, job_type, payload, status)]: the
    key is one more than the largest rowid ever used, the remaining
    columns take their defaults. *)
Definition add_job (now : Z) (u : Z) (jt : string)
    (pl : gmap string string) (tenant : option string) (seq : Z)
    (db : table) : bool * Z * table :=
  (true, seq + 1,
   db ++ [ {| id := seq + 1; uid := u; tenant_id := tenant; job_type := jt;
              payload := pl; status := pending; retry_count := 0;
              error := None; created_at := now; updated_at := now |} ]).

(** [status = 'pending' AND (retry_count = 0 OR
     updated_at < datetime('now', '-2 minutes'))] *)
Definition claimable (now : Z) (r : job) : bool :=
  bool_decide (status r = pending)
  && ((retry_count r =? 0) || (updated_at r <? now - 120)).

(** The same condition, as a proposition. *)
Definition eligible (now : Z) (r : job) : Prop :=
  status r = pending /\ (retry_count r = 0 \/ updated_at r < now - 120).

(** [ORDER BY created_at ASC LIMIT 1]: the smallest [created_at], the
    earliest row among equals. *)
Fixpoint oldest (rows : list job) : option job :=
  match rows with
  | [] => None
  | r :: rest =>
      match oldest rest with
      | Some r' => if created_at r' <? created_at r then Some r' else Some r
      | None => Some r
      end
  end.

Definition mark_processing (now : Z) (r : job) : job :=
  {| id := id r; uid := uid r; tenant_id := tenant_id r;
     job_type := job_type r; payload := payload r;
     status := processing; retry_count := retry_count r;
     error := error r; created_at := created_at r; updated_at := now |}.

(** [get_next_job]: one [BEGIN IMMEDIATE] transaction that reads the row
    and marks it; without a row the transaction is rolled back. *)
Definition get_next_job (now : Z) (db : table) : option job_dict * table :=
  match oldest (List.filter (claimable now) db) with
  | Some row =>
      (Some (dict_of_row row),
       sql_update (fun r => id r =? id row) (mark_processing now) db)
  | None => (None, db)
  end.

Definition mark_completed (now : Z) (r : job) : job :=
  {| id := id r; uid := uid r; tenant_id := tenant_id r;
     job_type := job_type r; payload := payload r;
     status := completed; retry_count := retry_count r;
     error := error r; created_at := created_at r; updated_at := now |}.

Definition complete_job (now : Z) (job_id : Z) (db : table) : table :=
  sql_update (fun r => id r =? job_id) (mark_completed now) db.

Definition MAX_RETRIES : Z := 3.

Definition mark_failure (now : Z) (new_status : job_status)
    (new_retries : Z) (error_msg : string) (r : job) : job :=
  {| id := id r; uid := uid r; tenant_id := tenant_id r;
     job_type := job_type r; payload := payload r;
     status := new_status; retry_count := new_retries;
     error := Some error_msg; created_at := created_at r;
     updated_at := now |}.

(** [fail_job]: reads the current count, decides the new status, writes
    both with the message; an unknown id changes nothing. *)
Definition fail_job (now : Z) (job_id : Z) (error_msg : string)
    (db : table) : table :=
  match sql_select_one (fun r => id r =? job_id) db with
  | Some row =>
      let current_retries := retry_count row in
      let new_retries := current_retries + 1 in
      let new_status :=
        if new_retries >? MAX_RETRIES then failed else pending in
      sql_update (fun r => id r =? job_id)
                 (mark_failure now new_status new_retries error_msg) db
  | None => db
  end.

Definition mark_reset (now : Z) (r : job) : job :=
  {| id := id r; uid := uid r; tenant_id := tenant_id r;
     job_type := job_type r; payload := payload r;
     status := pending; retry_count := retry_count r;
     error := Some "Reset from stuck state"%string;
     created_at := created_at r; updated_at := now |}.

(** [status = 'processing' AND
     updated_at < datetime('now', '-{timeout_minutes} minutes')] *)
Definition stuck (now : Z) (timeout_minutes : N) (r : job) : bool :=
  bool_decide (status r = processing)
  && (updated_at r <? now - 60 * Z.of_N timeout_minutes).

(** [reset_stuck_jobs], for a timeout of whole minutes; the commit is
    issued whenever a row was touched. *)
Definition reset_stuck_jobs (now : Z) (timeout_minutes : N) (db : table)
  : table :=
  sql_update (stuck now timeout_minutes) (mark_reset now) db.

(** The default of the [timeout_minutes] argument. *)
Definition DEFAULT_TIMEOUT_MINUTES : N := 10.

(** The row a query by primary key returns. *)
Definition lookup_job (job_id : Z) (db : table) : option job :=
  sql_select_one (fun r => id r =? job_id) db.

(** A run of failures of one job, each at its own time with its own
    message. *)
Definition fail_repeatedly (failures : list (Z * string)) (job_id : Z)
    (db : table) : table :=
  fold_left (fun d f => fail_job f.1 job_id f.2 d) failures db.

(** The columns no transaction writes after the insert. *)
Definition fixed_columns (r : job)
  : Z * Z * option string * string * gmap string string * Z :=
  (id r, uid r, tenant_id r, job_type r, payload r, created_at r).

End QueueDB.

(** ** Documents, pages and the outside world *)

Module Pdf.

(** A page is some original content, possibly with overlays composited
    on top of it.  [merge_page] keeps the page it is applied to and adds
    the overlay: it never replaces content. *)
Inductive page :=
| Content (label : string)
| Merged (under over : page).

#[global] Instance page_eq_dec : EqDecision page.
Proof. solve_decision. Defined.

Definition merge_page (p overlay : page) : page := Merged p overlay.

(** A page after the header step: merged with the overlay when there is
    one. *)
Definition with_header (header_overlay : option page) (p : page) : page :=
  match header_overlay with
  | Some h => merge_page p h
  | None => p
  end.

(** The content a page was built from. *)
Fixpoint base (p : page) : page :=
  match p with
  | Content _ => p
  | Merged under _ => base under
  end.

(** The overlays composited onto a page, oldest first. *)
Fixpoint overlays (p : page) : list page :=
  match p with
  | Content _ => []
  | Merged under over => overlays under ++ [over]
  end.

(** What a path of the file system holds: a document [PdfReader] can
    open, or any other bytes (images, truncated downloads). *)
Inductive file :=
| PdfFile (pages : list page)
| DataFile (bytes : string).

#[global] Instance file_eq_dec : EqDecision file.
Proof. solve_decision. Defined.

Abbreviation files := (gmap string file).

Definition os_path_exists (fs : files) (path : string) : bool :=
  bool_decide (is_Some (fs !! path)).

(** [PdfReader(path)] with [reader.pages]: [None] stands for the
    exception raised on a missing or unreadable document. *)
Definition PdfReader (fs : files) (path : string) : option (list page) :=
  match fs !! path with
  | Some (PdfFile pages) => Some pages
  | _ => None
  end.

(** The outcome of a call that may raise; [Raise] carries [str(e)]. *)
Inductive result (A : Type) :=
| Ok (a : A)
| Raise (msg : string).
Arguments Ok {A} a.
Arguments Raise {A} msg.

(** The collaborators the code calls but does not define: the Python
    and OS library, the reportlab renderer, pdfplumber and the
    [name_extractor] module, the fetch script and the two upload sinks.
    An [option] result is [None] when the call raises. *)
Record Env := {
  (** the directory of the running script *)
  script_dir : string;
  (** the entries [os.listdir] reports for a folder *)
  os_listdir : string -> list string;
  str_strip : string -> string;
  str_lower : string -> string;
  os_path_join : string -> string -> string;
  os_path_basename : string -> string;
  os_path_dirname : string -> string;
  (** [open(path, "wb")] succeeds *)
  can_write : string -> bool;
  (** a full-page drawing of an image *)
  render_cover : string -> option page;
  (** the white band with the logos that could be drawn *)
  render_header : option string -> option string -> option page;
  (** the same band as [worker.py] scales it *)
  render_header_worker : option string -> option string -> option page;
  extract_patient_name : string -> string -> result (string * string);
  (** the same extractor called with [None] for the path *)
  extract_patient_name_none : string -> result (string * string);
  (** the text pdfplumber collects from a document; empty when it fails
      at once *)
  pdf_text : string -> string;
  (** the text collected when pdfplumber is given [None] for the path *)
  pdf_text_none : string;
  extract_test_name : string -> result string;
  extract_age : string -> result string;
  (** the text of the OS error raised for a path *)
  os_error : string -> string;
  (** the text of the [SameFileError] raised for a source and a target *)
  same_file_error : string -> string -> string;
  (** the text of the error raised when a call receives [None] for a
      path *)
  none_path_error : string;
  (** today's download directory, created on demand *)
  todays_download_dir : string;
  (** the fresh name [tempfile.mkstemp] picks *)
  mkstemp : gmap string file -> string;
  (** running [fetch_url.py url target]: return code, captured output,
      captured errors, and the files it leaves *)
  fetch_url : string -> string -> gmap string file ->
              Z * string * string * gmap string file;
  (** the two sinks; both catch every exception and answer with a flag *)
  upload_to_drive : gmap string file -> string -> bool;
  upload_to_api : gmap string file -> string -> string -> bool
}.

(** The page objects of the open readers and the pages added to the
    writer.  A page object is named by its position in [heap];
    [merge_page] changes the object in place, and [add_page] records the
    object as it is when it is added. *)
Record session := Session {
  heap : list page;
  writer : list page
}.

Definition new_writer : session := {| heap := []; writer := [] |}.

(** Opening a reader creates its page objects; the result is the
    position of page 0. *)
Definition open_reader (pages : list page) (s : session) : session * nat :=
  ({| heap := heap s ++ pages; writer := writer s |}, length (heap s)).

Definition merge_page_at (loc : nat) (overlay : page) (s : session)
  : session :=
  match heap s !! loc with
  | Some p => {| heap := <[loc := merge_page p overlay]> (heap s);
                 writer := writer s |}
  | None => s
  end.

Definition add_page (loc : nat) (s : session) : session :=
  match heap s !! loc with
  | Some p => {| heap := heap s; writer := writer s ++ [p] |}
  | None => s
  end.

(** Adding a page that no reader owns (the rendered cover). *)
Definition add_fresh_page (p : page) (s : session) : session :=
  {| heap := heap s; writer := writer s ++ [p] |}.

(** [shutil.copy(src, dst)]: raises when the source cannot be read,
    when source and target are the same file, or when the target cannot
    be written.  A path names one file of the disk, and the disk holds
    regular files only, so that the target is never a directory to copy
    into. *)
Definition shutil_copy (env : Env) (src dst : string) (fs : files)
  : result files :=
  match fs !! src with
  | Some f =>
      if bool_decide (src = dst) then Raise (same_file_error env src dst)
      else if can_write env dst then Ok (<[dst := f]> fs)
      else Raise (os_error env dst)
  | None => Raise (os_error env src)
  end.

(** The characters the file-name pattern deletes: backslash, slash,
    star, question mark, colon, double quote, angle brackets, bar. *)
Definition illegal_chars : list nat :=
  [92; 47; 42; 63; 58; 34; 60; 62; 124]%nat.

Definition illegal_char (c : Ascii.ascii) : bool :=
  bool_decide (Ascii.nat_of_ascii c ∈ illegal_chars).

(** [re.sub] of that pattern with the empty string. *)
Fixpoint strip_illegal (s : string) : string :=
  match s with
  | EmptyString => EmptyString
  | String c rest =>
      if illegal_char c then strip_illegal rest
      else String c (strip_illegal rest)
  end.

(** Python's [x or default] on strings. *)
Definition str_or (x default : string) : string :=
  if bool_decide (x = "") then default else x.

End Pdf.

(** ** rebrand_folder_app.py: the composition engine *)

Module RebrandFolderApp.
Import Pdf.

Definition COVER_IMAGE (env : Env) : string :=
  os_path_join env (script_dir env) "firstpage.png".
Definition LEFT_LOGO (env : Env) : string :=
  os_path_join env (script_dir env) "toplabslogo.png".
Definition RIGHT_LOGO (env : Env) : string :=
  os_path_join env (script_dir env) "lab_thyrocare.png".

Definition clean_filename (env : Env) (name : string) : string :=
  if bool_decide (name = "") then "" else str_strip env (strip_illegal name).

(** [extract_info_from_pdf]: every exception of the extractors ends in
    the placeholder triple. *)
Definition extract_info_from_pdf (env : Env) (pdf_path : string)
  : string * string * string :=
  let fallback := ("UnknownPatient", "REPORT", "") in
  match extract_patient_name env pdf_path (os_path_basename env pdf_path) with
  | Raise _ => fallback
  | Ok (patient_name, _) =>
      let extracted_text := pdf_text env pdf_path in
      match extract_test_name env extracted_text with
      | Raise _ => fallback
      | Ok test_name =>
          match extract_age env extracted_text with
          | Raise _ => fallback
          | Ok age =>
              (str_or (clean_filename env patient_name) "UnknownPatient",
               str_or (clean_filename env test_name) "REPORT", age)
          end
      end
  end.

Definition create_cover_page (env : Env) (fs : files) (image_path : string)
  : option page :=
  if os_path_exists fs image_path then render_cover env image_path else None.

(** A logo is drawn only when it is given and its file exists. *)
Definition drawable (fs : files) (logo : option string) : option string :=
  match logo with
  | Some path => if os_path_exists fs path then Some path else None
  | None => None
  end.

Definition create_header_overlay (env : Env) (fs : files)
    (left_logo right_logo : option string) : option page :=
  render_header env (drawable fs left_logo) (drawable fs right_logo).

(** The overlay chosen by [header_style]; any value other than the two
    named styles gives none. *)
Definition header_overlay_for (env : Env) (fs : files)
    (header_style : string) : option page :=
  if bool_decide (header_style = "branded") then
    create_header_overlay env fs (Some (LEFT_LOGO env)) (Some (RIGHT_LOGO env))
  else if bool_decide (header_style = "white") then
    create_header_overlay env fs None None
  else None.

Definition add_cover_page (env : Env) (fs : files) (add_cover : bool)
    (s : session) : session :=
  if add_cover then
    match create_cover_page env fs (COVER_IMAGE env) with
    | Some cover_page => add_fresh_page cover_page s
    | None => s
    end
  else s.

(** The pages a fresh writer holds after the cover step. *)
Definition cover_pages (env : Env) (fs : files) (add_cover : bool)
  : list page :=
  writer (add_cover_page env fs add_cover new_writer).

(** The name of the branded file. *)
Definition single_output_filename (env : Env) (rename : bool)
    (input_path : string) : string :=
  if rename then
    let '(p_name, t_name, _) := extract_info_from_pdf env input_path in
    p_name +:+ " - " +:+ t_name +:+ ".pdf"
  else os_path_basename env input_path.

Definition start_page (remove_first_page : bool) (total_pages : nat) : nat :=
  if remove_first_page && (1 <? total_pages)%nat then 1%nat else 0%nat.

(** The body of the page loop; [first] is where the reader's page 0
    lives. *)
Definition brand_page (header_overlay : option page)
    (total_pages first : nat) (s : session) (i : nat) : session :=
  let s :=
    if (i <? total_pages - 1)%nat then
      match header_overlay with
      | Some h => merge_page_at (first + i) h s
      | None => s
      end
    else s in
  add_page (first + i) s.

(** Page [i] of [total] as the loop leaves it: every page but the last
    goes through the header step. *)
Definition branded (header_overlay : option page) (total_pages i : nat)
    (p : page) : page :=
  if (i <? total_pages - 1)%nat then with_header header_overlay p else p.

(** Python's [range(a, b)]. *)
Definition range (a b : nat) : list nat := seq a (b - a).

(** The pages of the branded document, in closed form: the cover, then each
    page of the window as the loop leaves it. *)
Definition branded_pages (env : Env) (fs : files) (header_style : string)
    (add_cover remove_first_page : bool) (pages : list page) : list page :=
  cover_pages env fs add_cover
  ++ map (fun i => branded (header_overlay_for env fs header_style)
                           (length pages) i (nth i pages (Content "")))
         (range (start_page remove_first_page (length pages))
                (length pages)).

(** [apply_branding_to_pdf]: the flag tells success, the file system is
    changed only by the final write. *)
Definition apply_branding_to_pdf (env : Env) (fs : files)
    (input_path output_dir header_style : string)
    (add_cover rename remove_first_page : bool) : bool * files :=
  match PdfReader fs input_path with
  | None => (false, fs)
  | Some pages =>
      let total_pages := length pages in
      if (total_pages =? 0)%nat then (false, fs)
      else
        let output_filename :=
          single_output_filename env rename input_path in
        let output_path := os_path_join env output_dir output_filename in
        let '(s, first) := open_reader pages new_writer in
        let s := add_cover_page env fs add_cover s in
        let header_overlay := header_overlay_for env fs header_style in
        let start_page_index := start_page remove_first_page total_pages in
        let s :=
          fold_left (brand_page header_overlay total_pages first)
                    (range start_page_index total_pages) s in
        if can_write env output_path then
          (true, <[output_path := PdfFile (writer s)]> fs)
        else (false, fs)
  end.

(** *** merge_patient_reports *)

(** A [(filepath, p_name, t_name)] entry of a patient group, and the
    [(name, age)] key of the group. *)
Abbreviation report := (string * string * string)%type.
Abbreviation patient_key := (string * string)%type.

(** [patient_groups[key].append(entry)]; a dictionary keeps its keys in
    the order of their first insertion. *)
Fixpoint group_append (key : patient_key) (entry : report)
    (groups : list (patient_key * list report))
  : list (patient_key * list report) :=
  match groups with
  | [] => [(key, [entry])]
  | (k, g) :: rest =>
      if decide (k = key) then (k, g ++ [entry]) :: rest
      else (k, g) :: group_append key entry rest
  end.

(** [s.endswith(suffix)] *)
Fixpoint ends_with (suffix s : string) : bool :=
  if String.eqb s suffix then true
  else match s with
       | EmptyString => false
       | String _ rest => ends_with suffix rest
       end.

Definition pdf_files (env : Env) (input_folder : string) : list string :=
  List.filter (fun f => ends_with ".pdf" (str_lower env f))
              (os_listdir env input_folder).

(** Step 1: group every document by [(name, age)]. *)
Definition group_by_patient (env : Env) (input_folder : string)
    (names : list string) : list (patient_key * list report) :=
  fold_left
    (fun groups filename =>
       let filepath := os_path_join env input_folder filename in
       let '(p_name, t_name, age) := extract_info_from_pdf env filepath in
       let key := (str_lower env (str_strip env p_name),
                   str_strip env age) in
       group_append key (filepath, p_name, t_name) groups)
    names [].

(** What the grouping loop computes for one file: the key
    [(p_name.strip().lower(), age.strip())] and the entry
    [(filepath, p_name, t_name)]. *)
Definition key_of (env : Env) (input_folder filename : string)
  : patient_key :=
  let '(p_name, _, age) :=
    extract_info_from_pdf env (os_path_join env input_folder filename) in
  (str_lower env (str_strip env p_name), str_strip env age).

Definition entry_of (env : Env) (input_folder filename : string) : report :=
  let filepath := os_path_join env input_folder filename in
  let '(p_name, t_name, _) := extract_info_from_pdf env filepath in
  (filepath, p_name, t_name).

(** [sep.join(parts)] *)
Fixpoint str_join (sep : string) (parts : list string) : string :=
  match parts with
  | [] => ""
  | [x] => x
  | x :: rest => x +:+ sep +:+ str_join sep rest
  end.

Definition merged_output_filename (group : list report) : string :=
  let p_name := match group with (_, p, _) :: _ => p | [] => "" end in
  let test_names := map (fun g : report => g.2) group in
  let combined_test := str_join " + " test_names in
  p_name +:+ " - " +:+ combined_test +:+ ".pdf".

(** The writer and readers of one merge, and [tc_page]: a reference to
    a page object of the last reader, not a copy of it. *)
Record merge_state := MergeState {
  pdf : session;
  tc_page : option nat
}.

Definition merge_content_page (header_overlay : option page) (first : nat)
    (s : session) (i : nat) : session :=
  let s :=
    match header_overlay with
    | Some h => merge_page_at (first + i) h s
    | None => s
    end in
  add_page (first + i) s.

(** Where the content of a report ends: before its last page, unless
    that leaves nothing after [start_idx]; then at the end. *)
Definition content_end (start_idx total_pages : nat) : nat :=
  let end_idx := (total_pages - 1)%nat in
  if (end_idx <=? start_idx)%nat then total_pages else end_idx.

(** One turn of the loop over the group; [None] when the document
    cannot be opened. *)
Definition merge_report (fs : files) (header_overlay : option page)
    (remove_first_page : bool) (group_len idx : nat) (filepath : string)
    (st : merge_state) : option merge_state :=
  match PdfReader fs filepath with
  | None => None
  | Some pages =>
      let '(s, first) := open_reader pages (pdf st) in
      let total_pages := length pages in
      if (total_pages =? 0)%nat
      then Some {| pdf := s; tc_page := tc_page st |}
      else
        let start_idx := start_page remove_first_page total_pages in
        let tc :=
          if (idx =? group_len - 1)%nat && (1 <? total_pages)%nat
          then Some (first + (total_pages - 1))%nat
          else tc_page st in
        if (total_pages <=? start_idx)%nat
        then Some {| pdf := s; tc_page := tc |}
        else
          let end_idx := content_end start_idx total_pages in
          Some {| pdf := fold_left (merge_content_page header_overlay first)
                                   (range start_idx end_idx) s;
                  tc_page := tc |}
  end.

(** [enumerate(group)] *)
Definition enumerate {A} (l : list A) : list (nat * A) :=
  combine (seq 0 (length l)) l.

Fixpoint merge_reports (fs : files) (header_overlay : option page)
    (remove_first_page : bool) (group_len : nat)
    (items : list (nat * report)) (st : merge_state)
  : option merge_state :=
  match items with
  | [] => Some st
  | (idx, (filepath, _, _)) :: rest =>
      match merge_report fs header_overlay remove_first_page group_len idx
                         filepath st with
      | Some st' =>
          merge_reports fs header_overlay remove_first_page group_len
                        rest st'
      | None => None
      end
  end.

(** The pages of the merged document of a group of several reports;
    [None] when some report cannot be opened. *)
Definition merged_pages (env : Env) (fs : files)
    (header_overlay : option page) (add_cover remove_first_page : bool)
    (group : list report) : option (list page) :=
  let s := add_cover_page env fs add_cover new_writer in
  match merge_reports fs header_overlay remove_first_page (length group)
                      (enumerate group) {| pdf := s; tc_page := None |} with
  | None => None
  | Some st =>
      let s :=
        match tc_page st with
        | Some loc => add_page loc (pdf st)
        | None => pdf st
        end in
      Some (writer s)
  end.

(** The merge of one group with its write. *)
Definition merge_group (env : Env) (fs : files) (output_folder : string)
    (header_overlay : option page) (add_cover remove_first_page : bool)
    (group : list report) : bool * files :=
  let output_filename := merged_output_filename group in
  let output_path := os_path_join env output_folder output_filename in
  match merged_pages env fs header_overlay add_cover remove_first_page
                     group with
  | None => (false, fs)
  | Some pages =>
      if can_write env output_path then
        (true, <[output_path := PdfFile pages]> fs)
      else (false, fs)
  end.

(** The loop over the patient groups: a lone report goes through
    [apply_branding_to_pdf], several are merged. *)
Definition process_group (env : Env) (output_folder header_style : string)
    (header_overlay : option page) (add_cover remove_first_page : bool)
    (acc : nat * nat * files) (entry : patient_key * list report)
  : nat * nat * files :=
  let '(success_count, total_output, fs) := acc in
  let total_output := S total_output in
  let '(ok, fs') :=
    match entry.2 with
    | [(filepath, _, _)] =>
        apply_branding_to_pdf env fs filepath output_folder header_style
                              add_cover true remove_first_page
    | group =>
        merge_group env fs output_folder header_overlay add_cover
                    remove_first_page group
    end in
  ((if ok then S success_count else success_count), total_output, fs').

Definition merge_patient_reports (env : Env) (fs : files)
    (input_folder output_folder header_style : string)
    (add_cover remove_first_page : bool) : nat * nat * files :=
  let names := pdf_files env input_folder in
  match names with
  | [] => (0%nat, 0%nat, fs)
  | _ =>
      let patient_groups := group_by_patient env input_folder names in
      let header_overlay := header_overlay_for env fs header_style in
      fold_left (process_group env output_folder header_style
                               header_overlay add_cover remove_first_page)
                patient_groups (0%nat, 0%nat, fs)
  end.

(** *** process_folder *)

(** One turn of the loop of the normal mode. *)
Definition process_file (env : Env) (input_folder output_folder
    header_style : string) (add_cover rename remove_first_page : bool)
    (acc : nat * files) (filename : string) : nat * files :=
  let '(success_count, fs) := acc in
  let input_path := os_path_join env input_folder filename in
  let '(ok, fs') :=
    apply_branding_to_pdf env fs input_path output_folder header_style
                          add_cover rename remove_first_page in
  ((if ok then S success_count else success_count), fs').

(** [process_folder]; [input_exists] and [output_exists] are the
    answers of [os.path.exists] for the two folders.  Beside the counts
    and the files it gives the folders it has [os.makedirs] create: the
    output folder when it is missing, before the listing is looked at.
    In the merge mode the output folder is there by the time
    [merge_patient_reports] asks for it. *)
Definition process_folder (env : Env) (fs : files)
    (input_exists output_exists : bool)
    (input_folder output_folder header_style : string)
    (add_cover rename remove_first_page merge_reports : bool)
  : nat * nat * files * list string :=
  if negb input_exists then (0%nat, 0%nat, fs, [])
  else
    let made := if output_exists then [] else [output_folder] in
    let names := pdf_files env input_folder in
    match names with
    | [] => (0%nat, 0%nat, fs, made)
    | _ =>
        if merge_reports then
          (merge_patient_reports env fs input_folder output_folder
                                 header_style add_cover remove_first_page,
           made)
        else
          let '(success_count, fs') :=
            fold_left (process_file env input_folder output_folder
                                    header_style add_cover rename
                                    remove_first_page)
                      names (0%nat, fs) in
          (success_count, length names, fs', made)
    end.

(** *** The merged document, report by report *)

(** The content pages one report gives to the merge. *)
Definition content_of (header_overlay : option page)
    (remove_first_page : bool) (pages : list page) : list page :=
  let total_pages := length pages in
  let start_idx := start_page remove_first_page total_pages in
  map (with_header header_overlay)
      (take (content_end start_idx total_pages - start_idx)
            (drop start_idx pages)).

(** The terminal page the last report leaves: its last page object, as
    the content loop left it. *)
Definition terminal_of (header_overlay : option page)
    (remove_first_page : bool) (pages : list page) : list page :=
  let total_pages := length pages in
  if (1 <? total_pages)%nat then
    match last pages with
    | Some p =>
        if (content_end (start_page remove_first_page total_pages)
                        total_pages =? total_pages)%nat
        then [with_header header_overlay p] else [p]
    | None => []
    end
  else [].

(** What the final [add_page] of the terminal page adds to the
    writer. *)
Definition terminal_added (st : merge_state) : list page :=
  match tc_page st with
  | Some loc => match heap (pdf st) !! loc with
                | Some p => [p]
                | None => []
                end
  | None => []
  end.

End RebrandFolderApp.

(** ** worker.py: branding inside the pipeline and the job processor *)

Module Worker.
Import Pdf.

Definition COVER_IMAGE : string := "firstpage.png".
Definition LEFT_LOGO : string := "toplabslogo.png".
Definition RIGHT_LOGO : string := "lab_thyrocare.png".

(** Drawing a missing image raises inside [create_cover_page], which
    answers [None]. *)
Definition create_cover_page (env : Env) (fs : files) (image_path : string)
  : option page :=
  if os_path_exists fs image_path then render_cover env image_path else None.

Definition create_header_overlay (env : Env) (fs : files)
    (left right : string) : option page :=
  render_header_worker env
    (if os_path_exists fs left then Some left else None)
    (if os_path_exists fs right then Some right else None).

Definition brand_page (header : option page) (total first : nat)
    (s : session) (i : nat) : session :=
  let s :=
    match header with
    | Some h => if (i <? total - 1)%nat then merge_page_at (first + i) h s
                else s
    | None => s
    end in
  add_page (first + i) s.

(** The [try] block of [apply_branding]; [None] when it raises. *)
Definition try_branding (env : Env) (fs : files)
    (input_path output_path : string) : option files :=
  if negb (os_path_exists fs COVER_IMAGE) then
    match shutil_copy env input_path output_path fs with
    | Ok fs' => Some fs'
    | Raise _ => None
    end
  else
    match PdfReader fs input_path with
    | None => None
    | Some pages =>
        let '(s, first) := open_reader pages new_writer in
        let s :=
          match create_cover_page env fs COVER_IMAGE with
          | Some cover => add_fresh_page cover s
          | None => s
          end in
        let header := create_header_overlay env fs LEFT_LOGO RIGHT_LOGO in
        let s :=
          fold_left (brand_page header (length pages) first)
                    (seq 1 (length pages - 1)) s in
        if can_write env output_path then
          Some (<[output_path := PdfFile (writer s)]> fs)
        else None
    end.

(** [apply_branding]: whatever goes wrong, the handler copies the
    source to the output path; only a failure of that copy escapes. *)
Definition apply_branding (env : Env) (fs : files)
    (input_path output_path : string) : result files :=
  match try_branding env fs input_path output_path with
  | Some fs' => Ok fs'
  | None => shutil_copy env input_path output_path fs
  end.

(** The calls the job processor makes into [queue_db]. *)
Inductive queue_call :=
| CompleteJob (job_id : Z)
| FailJob (job_id : Z) (error_msg : string).

#[global] Instance queue_call_eq_dec : EqDecision queue_call.
Proof. solve_decision. Defined.

Definition run_call (now : Z) (c : queue_call) (db : QueueDB.table)
  : QueueDB.table :=
  match c with
  | CompleteJob job_id => QueueDB.complete_job now job_id db
  | FailJob job_id error_msg => QueueDB.fail_job now job_id error_msg db
  end.

(** Computations on the file system that may raise; the files written
    before the exception stay. *)
Definition io (A : Type) : Type := files -> result A * files.

Definition ret {A} (a : A) : io A := fun fs => (Ok a, fs).
Definition raise {A} (msg : string) : io A := fun fs => (Raise msg, fs).
Definition bind {A B} (m : io A) (k : A -> io B) : io B :=
  fun fs =>
    match m fs with
    | (Ok a, fs') => k a fs'
    | (Raise msg, fs') => (Raise msg, fs')
    end.
Definition lift {A} (r : result A) : io A := fun fs => (r, fs).
Definition get_files : io files := fun fs => (Ok fs, fs).
Definition put_files (fs' : files) : io unit := fun _ => (Ok tt, fs').

Notation "x <- m ;; k" := (bind m (fun x => k))
  (at level 100, m at next level, right associativity).

Definition fetch_failure (url stdout stderr : string) : string :=
  "Failed to fetch URL: " +:+ url +:+ " | " +:+
  "Stdout: " +:+ stdout +:+ " | Stderr: " +:+ stderr.

(** [os.path.getsize(path) == 0] *)
Definition is_empty_file (f : file) : bool :=
  match f with
  | DataFile bytes => bool_decide (bytes = "")
  | PdfFile _ => false
  end.

(** Determine the source file: the path of a [file] job must exist, a
    [link] job is fetched into a fresh temporary file.  With any other
    type no path is set. *)
Definition resolve_source (env : Env) (job : QueueDB.job_dict)
  : io (option string) :=
  let payload := QueueDB.d_payload job in
  if bool_decide (QueueDB.d_job_type job = "file") then
    match payload !! "path" with
    | None => raise "'path'"
    | Some temp_path =>
        fs <- get_files ;;
        if os_path_exists fs temp_path then ret (Some temp_path)
        else raise ("Source file missing: " +:+ temp_path)
    end
  else if bool_decide (QueueDB.d_job_type job = "link") then
    match payload !! "url" with
    | None => raise "'url'"
    | Some url =>
        fs <- get_files ;;
        let temp_path := mkstemp env fs in
        let '(returncode, stdout, stderr, fs') :=
          fetch_url env url temp_path (<[temp_path := DataFile ""]> fs) in
        _ <- put_files fs' ;;
        if negb (returncode =? 0)%Z then
          raise (fetch_failure url stdout stderr)
        else
          match fs' !! temp_path with
          | None => raise (os_error env temp_path)
          | Some f =>
              if is_empty_file f then raise (fetch_failure url stdout stderr)
              else ret (Some temp_path)
          end
    end
  else ret None.

Definition safe_name (env : Env) (name default : string) : string :=
  str_or (str_strip env (strip_illegal name)) default.

Definition final_fname (env : Env) (p_name t_name : string) : string :=
  safe_name env p_name "Unknown" +:+ "_"
  +:+ safe_name env t_name "REPORT" +:+ ".pdf".

(** From the source to the branded file: the resolved path, the patient
    name and the path of the branded file.  Without a path the
    extraction still runs, on [None]; [apply_branding] then fails in its
    [try] block and again in the copy of its handler, whose error is the
    one that escapes, before any file is written. *)
Definition prepare (env : Env) (job : QueueDB.job_dict)
  : io (string * string * string) :=
  source <- resolve_source env job ;;
  let filename :=
    default "report.pdf" (QueueDB.d_payload job !! "filename") in
  match source with
  | None =>
      named <- lift (extract_patient_name_none env filename) ;;
      t_name <- lift (extract_test_name env (pdf_text_none env)) ;;
      raise (none_path_error env)
  | Some temp_path =>
      named <- lift (extract_patient_name env temp_path filename) ;;
      let p_name := named.1 in
      let extracted_text := pdf_text env temp_path in
      t_name <- lift (extract_test_name env extracted_text) ;;
      let final_path :=
        os_path_join env (todays_download_dir env)
                     (final_fname env p_name t_name) in
      fs <- get_files ;;
      fs' <- lift (apply_branding env fs temp_path final_path) ;;
      _ <- put_files fs' ;;
      ret (temp_path, p_name, final_path)
  end.

(** The removal of the local artifacts after success; its own failures
    are swallowed.  Beside the files that are left it gives the
    directories handed to [os.rmdir], which removes a directory when it
    is empty: the parent of the source of a [file] job. *)
Definition cleanup (env : Env) (job : QueueDB.job_dict)
    (temp_path final_path : string) (fs : files) : files * list string :=
  let fs := if os_path_exists fs final_path then delete final_path fs
            else fs in
  let fs :=
    if bool_decide (QueueDB.d_job_type job = "link")
       && os_path_exists fs temp_path
    then delete temp_path fs
    else fs in
  if bool_decide (QueueDB.d_job_type job = "file")
     && os_path_exists fs temp_path
  then (delete temp_path fs, [os_path_dirname env temp_path])
  else (fs, []).

(** [process_job] up to its call into the queue, with the files it
    leaves; the directory its cleanup hands to [os.rmdir] is the second
    component of [cleanup]. *)
Definition process_job_call (env : Env) (job : QueueDB.job_dict)
    (fs : files) : queue_call * files :=
  let job_id := QueueDB.d_id job in
  match prepare env job fs with
  | (Raise msg, fs') => (FailJob job_id msg, fs')
  | (Ok (temp_path, p_name, final_path), fs') =>
      let drive_ok := upload_to_drive env fs' final_path in
      let api_ok := upload_to_api env fs' final_path p_name in
      if drive_ok || api_ok then
        (CompleteJob job_id, (cleanup env job temp_path final_path fs').1)
      else (FailJob job_id "Both Drive and API uploads failed", fs')
  end.

Record world := World {
  disk : files;
  jobs : QueueDB.table
}.

Definition process_job (env : Env) (now : Z) (job : QueueDB.job_dict)
    (w : world) : world :=
  let '(call, fs') := process_job_call env job (disk w) in
  {| disk := fs'; jobs := run_call now call (jobs w) |}.

(** Whether the store answers the three calls of one turn.  When the
    connection cannot be opened, or a statement raises as on a database
    that stays locked, a function of [queue_db] logs the error and
    returns: the table stays as it is, and [get_next_job] answers
    [None]. *)
Record store_answers := StoreAnswers {
  sweep_ok : bool;
  claim_ok : bool;
  final_ok : bool
}.

(** One turn of the loop of [main]: sweep, claim, process.  The three
    statements read the clock one after the other. *)
Definition main_iteration (env : Env) (store : store_answers)
    (t_sweep t_claim t_done : Z) (w : world) : world :=
  let db :=
    if sweep_ok store
    then QueueDB.reset_stuck_jobs t_sweep QueueDB.DEFAULT_TIMEOUT_MINUTES
                                  (jobs w)
    else jobs w in
  let claim := if claim_ok store then QueueDB.get_next_job t_claim db
               else (None, db) in
  match claim with
  | (Some job, db') =>
      let w' := process_job env t_done job {| disk := disk w; jobs := db' |} in
      if final_ok store then w' else {| disk := disk w'; jobs := db' |}
  | (None, db') => {| disk := disk w; jobs := db' |}
  end.

End Worker.

(** ** rebrand_folder.py: the first version of the folder script *)

Module RebrandFolder.
Import Pdf.

Definition COVER_IMAGE (env : Env) : string :=
  os_path_join env (script_dir env) "firstpage.png".
Definition LEFT_LOGO (env : Env) : string :=
  os_path_join env (script_dir env) "toplabslogo.png".
Definition RIGHT_LOGO (env : Env) : string :=
  os_path_join env (script_dir env) "lab_thyrocare.png".

Definition create_cover_page (env : Env) (fs : files) (image_path : string)
  : option page :=
  if os_path_exists fs image_path then render_cover env image_path else None.

Definition create_header_overlay (env : Env) (fs : files)
    (left_image_path right_image_path : string) : option page :=
  render_header env
    (if os_path_exists fs left_image_path then Some left_image_path else None)
    (if os_path_exists fs right_image_path then Some right_image_path
     else None).

Definition brand_page (header_overlay : option page)
    (total_pages first : nat) (s : session) (i : nat) : session :=
  if (i =? total_pages - 1)%nat then add_page (first + i) s
  else
    let s :=
      match header_overlay with
      | Some h => merge_page_at (first + i) h s
      | None => s
      end in
    add_page (first + i) s.

(** [shutil.copy] inside its own [try]: a failed copy is logged and the
    files stay as they are. *)
Definition copy_quietly (env : Env) (src dst : string) (fs : files)
  : files :=
  match shutil_copy env src dst fs with
  | Ok fs' => fs'
  | Raise _ => fs
  end.

(** The [try] block; [None] when it raises. *)
Definition try_branding (env : Env) (fs : files)
    (input_path output_path : string) : option (bool * files) :=
  match PdfReader fs input_path with
  | None => None
  | Some pages =>
      let total_pages := length pages in
      if (total_pages =? 0)%nat then Some (false, fs)
      else
        let '(s, first) := open_reader pages new_writer in
        let s :=
          match create_cover_page env fs (COVER_IMAGE env) with
          | Some cover_page => add_fresh_page cover_page s
          | None => s
          end in
        let header_overlay :=
          create_header_overlay env fs (LEFT_LOGO env) (RIGHT_LOGO env) in
        let start_page_index := if (1 <? total_pages)%nat then 1%nat
                                else 0%nat in
        let s :=
          fold_left (brand_page header_overlay total_pages first)
                    (seq start_page_index (total_pages - start_page_index))
                    s in
        if can_write env output_path then
          Some (true, <[output_path := PdfFile (writer s)]> fs)
        else None
  end.

Definition apply_branding_to_pdf (env : Env) (fs : files)
    (input_path output_path : string) : bool * files :=
  if negb (os_path_exists fs (COVER_IMAGE env)) then
    (false, copy_quietly env input_path output_path fs)
  else
    match try_branding env fs input_path output_path with
    | Some outcome => outcome
    | None => (false, copy_quietly env input_path output_path fs)
    end.

End RebrandFolder.

(** ** producer.py: the watermark over the mailbox *)

Module Producer.

(** The part of the inner loop of [main] between two sleeps, for the
    UIDs the search answered.  [process_email] is taken as it is called:
    it tells whether the message counts as processed and changes the
    queue and the job folders, here the state [W]. *)
Section Scan.
Variable W : Type.
Variable process_email : Z -> W -> bool * W.

(** The UIDs above the watermark, ascending. *)
Definition new_uids (last_uid : Z) (found : list Z) : list Z :=
  merge_sort Z.le (List.filter (fun u => (last_uid <? u)%Z) found).

Definition scan_step (acc : gmap string Z * W) (uid : Z)
  : gmap string Z * W :=
  let '(state, w) := acc in
  let '(ok, w') := process_email uid w in
  ((if ok then <["last_processed_uid" := uid]> state else state), w').

(** [None] when the state has no [last_processed_uid] key. *)
Definition scan_mailbox (found : list Z) (state : gmap string Z) (w : W)
  : option (gmap string Z * W) :=
  match state !! "last_processed_uid" with
  | None => None
  | Some last_uid =>
      Some (fold_left scan_step (new_uids last_uid found) (state, w))
  end.

End Scan.

End Producer.

(** ** webapp/web_app.py: the names of uploaded files *)

Module WebApp.

(** [s.replace(old, new)] for one-character strings. *)
Fixpoint replace_char (old new : nat) (s : string) : string :=
  match s with
  | EmptyString => EmptyString
  | String c rest =>
      String (if (Ascii.nat_of_ascii c =? old)%nat
              then Ascii.ascii_of_nat new else c)
             (replace_char old new rest)
  end.

(** Slash and backslash become underscores. *)
Definition safe_name (filename : string) : string :=
  replace_char 92 95 (replace_char 47 95 filename).

(** The uploads [process_pdfs] saves: those named like a PDF, under
    their safe name in the input directory. *)
Definition save_uploads (env : Pdf.Env) (input_dir : string)
    (uploads : list (string * Pdf.file)) (fs : Pdf.files) : Pdf.files :=
  fold_left
    (fun fs (f : string * Pdf.file) =>
       if RebrandFolderApp.ends_with ".pdf" (Pdf.str_lower env f.1)
       then <[Pdf.os_path_join env input_dir (safe_name f.1) := f.2]> fs
       else fs)
    uploads fs.

End WebApp.

(** ** Concrete tables, documents and environments *)

Module Samples.
Import QueueDB.
Local Open Scope Z_scope.

Definition row (i created : Z) (st : job_status) (retries updated : Z)
  : job :=
  {| id := i; uid := 100 + i; tenant_id := None; job_type := "file";
     payload := {[ "path" := "in/report.pdf" ]}; status := st;
     retry_count := retries; error := None;
     created_at := created; updated_at := updated |}.

(** At time 1000: row 2 failed once 50 seconds ago, row 4 is with a
    worker since long, row 5 since a moment. *)
Definition queue : table :=
  [ row 1 50 pending 0 50; row 2 10 pending 1 950; row 3 30 pending 0 30;
    row 4 5 processing 0 5; row 5 40 processing 2 900 ].

Import Pdf.

(** POSIX flavour of the path functions. *)
Fixpoint after_last_slash (acc s : string) : string :=
  match s with
  | EmptyString => acc
  | String c rest =>
      if (Ascii.nat_of_ascii c =? 47)%nat then after_last_slash rest rest
      else after_last_slash acc rest
  end.

Definition posix_basename (path : string) : string :=
  after_last_slash path path.

(** The part before the last slash; [None] without a slash. *)
Fixpoint before_last_slash (s : string) : option string :=
  match s with
  | EmptyString => None
  | String c rest =>
      match before_last_slash rest with
      | Some head => Some (String c head)
      | None => if (Ascii.nat_of_ascii c =? 47)%nat then Some EmptyString
                else None
      end
  end.

Definition posix_dirname (path : string) : string :=
  match before_last_slash path with
  | Some EmptyString => "/"
  | Some head => head
  | None => ""
  end.

Definition posix_join (a b : string) : string :=
  if String.prefix "/" b then b
  else if bool_decide (a = "") then b
  else if RebrandFolderApp.ends_with "/" a then a +:+ b
  else a +:+ "/" +:+ b.

Definition is_space (c : Ascii.ascii) : bool :=
  let n := Ascii.nat_of_ascii c in
  ((9 <=? n) && (n <=? 13) || (28 <=? n) && (n <=? 32))%nat.

Fixpoint lstrip (s : string) : string :=
  match s with
  | String c rest => if is_space c then lstrip rest else s
  | EmptyString => s
  end.

Fixpoint rstrip (s : string) : string :=
  match s with
  | String c rest =>
      match rstrip rest with
      | EmptyString => if is_space c then EmptyString
                       else String c EmptyString
      | kept => String c kept
      end
  | EmptyString => s
  end.

Definition lower_char (c : Ascii.ascii) : Ascii.ascii :=
  let n := Ascii.nat_of_ascii c in
  if ((65 <=? n) && (n <=? 90))%nat then Ascii.ascii_of_nat (n + 32) else c.

Fixpoint lower (s : string) : string :=
  match s with
  | String c rest => String (lower_char c) (lower rest)
  | EmptyString => s
  end.

(** Three reports of one patient, a one-page report of another, and a
    download that is no document, in two folders. *)
Definition doc_a : list page := [Content "a0"; Content "a1"; Content "a2"].
Definition doc_b : list page := [Content "b0"; Content "b1"; Content "b2"].
Definition doc_c : list page := [Content "c0"; Content "c1"].
Definition doc_d : list page := [Content "d0"].

Definition disk : files :=
  {[ "in/a.pdf" := PdfFile doc_a; "in/b.pdf" := PdfFile doc_b;
     "other/c.pdf" := PdfFile doc_c; "other/d.pdf" := PdfFile doc_d;
     "other/broken.pdf" := DataFile "<html>";
     "in/notes.txt" := DataFile "call the lab";
     "/app/firstpage.png" := DataFile "png";
     "/app/toplabslogo.png" := DataFile "png";
     "/app/lab_thyrocare.png" := DataFile "png";
     "firstpage.png" := DataFile "png";
     "toplabslogo.png" := DataFile "png";
     "lab_thyrocare.png" := DataFile "png" ]}.

Definition patient_of (path : string) : string :=
  if bool_decide (path = "other/d.pdf") then "Dev Nair" else "Asha Rao".

Definition test_of (text : string) : string :=
  if bool_decide (text = "in/a.pdf") then "CBC"
  else if bool_decide (text = "in/b.pdf") then "LIPID"
  else if bool_decide (text = "other/c.pdf") then "TSH"
  else "HBA1C".

Definition cover_page : page := Content "cover".
Definition header_page : page := Content "header".

(** The text of a document is taken to be its path, so that the test
    name can be told from it. *)
Definition env : Env :=
  {| script_dir := "/app";
     os_listdir := fun folder =>
       if bool_decide (folder = "in") then ["a.pdf"; "b.pdf"; "notes.txt"]
       else if bool_decide (folder = "other")
            then ["c.pdf"; "d.pdf"; "broken.pdf"]
            else [];
     str_strip := fun s => rstrip (lstrip s);
     str_lower := lower;
     os_path_join := posix_join;
     os_path_basename := posix_basename;
     os_path_dirname := posix_dirname;
     can_write := fun _ => true;
     render_cover := fun _ => Some cover_page;
     render_header := fun _ _ => Some header_page;
     render_header_worker := fun _ _ => Some header_page;
     extract_patient_name := fun path _ => Ok (patient_of path, "text");
     extract_patient_name_none := fun _ => Ok ("Unknown", "fallback");
     pdf_text := fun path => path;
     pdf_text_none := EmptyString;
     extract_test_name := fun text => Ok (test_of text);
     extract_age := fun _ => Ok "34";
     os_error := fun path => "[Errno 2] No such file or directory: " +:+ path;
     same_file_error := fun src dst =>
       src +:+ " and " +:+ dst +:+ " are the same file";
     none_path_error := "expected str, bytes or os.PathLike object";
     todays_download_dir := "/srv/download_pdf/2026-01-05";
     mkstemp := fun _ => "/tmp/thyro_0001.pdf";
     fetch_url := fun _ target fs => (0%Z, "", "", <[target := PdfFile doc_a]> fs);
     upload_to_drive := fun _ _ => false;
     upload_to_api := fun _ _ _ => true |}.

(** The same world with both sinks down. *)
Definition env_offline : Env :=
  {| script_dir := script_dir env; os_listdir := os_listdir env;
     str_strip := str_strip env; str_lower := str_lower env;
     os_path_join := os_path_join env;
     os_path_basename := os_path_basename env;
     os_path_dirname := os_path_dirname env;
     can_write := can_write env; render_cover := render_cover env;
     render_header := render_header env;
     render_header_worker := render_header_worker env;
     extract_patient_name := extract_patient_name env;
     extract_patient_name_none := extract_patient_name_none env;
     pdf_text := pdf_text env; pdf_text_none := pdf_text_none env;
     extract_test_name := extract_test_name env;
     extract_age := extract_age env; os_error := os_error env;
     same_file_error := same_file_error env;
     none_path_error := none_path_error env;
     todays_download_dir := todays_download_dir env;
     mkstemp := mkstemp env; fetch_url := fetch_url env;
     upload_to_drive := fun _ _ => false;
     upload_to_api := fun _ _ _ => false |}.

Definition report_a : RebrandFolderApp.report := ("in/a.pdf", "Asha Rao", "CBC").
Definition report_b : RebrandFolderApp.report := ("in/b.pdf", "Asha Rao", "LIPID").
Definition report_c : RebrandFolderApp.report := ("other/c.pdf", "Asha Rao", "TSH").

Definition file_job : job_dict :=
  {| d_id := 1; d_uid := 101; d_job_type := "file";
     d_payload := {[ "path" := "in/a.pdf"; "filename" := "a.pdf" ]};
     d_retry_count := 0 |}.

(** A job of a type the worker does not know. *)
Definition scan_job : job_dict :=
  {| d_id := 3; d_uid := 103; d_job_type := "scan";
     d_payload := {[ "filename" := "scan.pdf" ]};
     d_retry_count := 0 |}.

Definition world : Worker.world :=
  {| Worker.disk := disk; Worker.jobs := queue |}.

Definition link_job : job_dict :=
  {| d_id := 2; d_uid := 102; d_job_type := "link";
     d_payload := {[ "url" := "https://thyro.care/n/o/abc" ]};
     d_retry_count := 0 |}.

(** The same world with the report portal out of reach. *)
Definition env_fetch_down : Env :=
  {| script_dir := script_dir env; os_listdir := os_listdir env;
     str_strip := str_strip env; str_lower := str_lower env;
     os_path_join := os_path_join env;
     os_path_basename := os_path_basename env;
     os_path_dirname := os_path_dirname env;
     can_write := can_write env; render_cover := render_cover env;
     render_header := render_header env;
     render_header_worker := render_header_worker env;
     extract_patient_name := extract_patient_name env;
     extract_patient_name_none := extract_patient_name_none env;
     pdf_text := pdf_text env; pdf_text_none := pdf_text_none env;
     extract_test_name := extract_test_name env;
     extract_age := extract_age env; os_error := os_error env;
     same_file_error := same_file_error env;
     none_path_error := none_path_error env;
     todays_download_dir := todays_download_dir env;
     mkstemp := mkstemp env;
     fetch_url := fun _ _ fs => (1%Z, "", "timeout", fs);
     upload_to_drive := upload_to_drive env;
     upload_to_api := upload_to_api env |}.


(** A mailbox pass: the message with UID 12 cannot be fetched, the
    others are enqueued; the state of the outside world is the list of
    UIDs enqueued so far. *)
Definition mailbox_step (uid : Z) (enqueued : list Z) : bool * list Z :=
  if (uid =? 12)%Z then (false, enqueued) else (true, enqueued ++ [uid]).

Definition mail_state : gmap string Z :=
  {[ "last_processed_uid" := 10; "last_processed_time" := 0 ]}.


(** A queue with finished jobs between open ones. *)
Definition finished_queue : table :=
  [ row 1 10 pending 0 10; row 2 20 completed 0 60; row 3 30 failed 4 90;
    row 4 40 processing 1 100 ].


(** The same world with a folder that holds one report per patient. *)
Definition env_solo : Env :=
  {| script_dir := script_dir env;
     os_listdir := fun _ => ["c.pdf"; "d.pdf"];
     str_strip := str_strip env; str_lower := str_lower env;
     os_path_join := os_path_join env;
     os_path_basename := os_path_basename env;
     os_path_dirname := os_path_dirname env;
     can_write := can_write env; render_cover := render_cover env;
     render_header := render_header env;
     render_header_worker := render_header_worker env;
     extract_patient_name := extract_patient_name env;
     extract_patient_name_none := extract_patient_name_none env;
     pdf_text := pdf_text env; pdf_text_none := pdf_text_none env;
     extract_test_name := extract_test_name env;
     extract_age := extract_age env; os_error := os_error env;
     same_file_error := same_file_error env;
     none_path_error := none_path_error env;
     todays_download_dir := todays_download_dir env;
     mkstemp := mkstemp env; fetch_url := fetch_url env;
     upload_to_drive := upload_to_drive env;
     upload_to_api := upload_to_api env |}.

End Samples.

(** * Properties of the job store *)

Module QueueFacts.
Import QueueDB.
Local Open Scope Z_scope.

Lemma claimable_eligible now r : claimable now r = true <-> eligible now r.
Proof.
  unfold claimable, eligible.
  rewrite andb_true_iff, orb_true_iff, bool_decide_eq_true.
  rewrite Z.eqb_eq, Z.ltb_lt. reflexivity.
Qed.

Lemma oldest_None rows : oldest rows = None -> rows = [].
Proof.
  destruct rows as [|r rest]; [reflexivity|]. simpl.
  destruct (oldest rest) as [r'|]; [|discriminate].
  destruct (created_at r' <? created_at r); discriminate.
Qed.

Lemma oldest_elem rows row : oldest rows = Some row -> row ∈ rows.
Proof.
  revert row. induction rows as [|r rest IH]; intros row; simpl.
  - discriminate.
  - destruct (oldest rest) as [r'|] eqn:E.
    + destruct (created_at r' <? created_at r); intros [= <-].
      * right. now apply IH.
      * left.
    + intros [= <-]. left.
Qed.

Lemma oldest_least rows row :
  oldest rows = Some row ->
  forall r, r ∈ rows -> created_at row <= created_at r.
Proof.
  revert row. induction rows as [|r0 rest IH]; intros row; simpl.
  - discriminate.
  - destruct (oldest rest) as [r'|] eqn:E.
    + destruct (created_at r' <? created_at r0) eqn:C; intros [= <-] r Hr;
        apply elem_of_cons in Hr as [->|Hr].
      * apply Z.ltb_lt in C. lia.
      * now apply IH.
      * lia.
      * apply Z.ltb_ge in C. specialize (IH r' eq_refl r Hr). lia.
    + apply oldest_None in E. subst rest.
      intros [= <-] r Hr. apply elem_of_cons in Hr as [->|Hr]; [lia|].
      now apply elem_of_nil in Hr.
Qed.

Lemma elem_of_filter_claimable now db r :
  r ∈ List.filter (claimable now) db <-> r ∈ db /\ eligible now r.
Proof.
  rewrite !list_elem_of_In, filter_In, claimable_eligible. reflexivity.
Qed.

Lemma sql_update_length cond set db :
  length (sql_update cond set db) = length db.
Proof. unfold sql_update. now rewrite length_map. Qed.

Lemma sql_update_lookup cond set db i :
  sql_update cond set db !! i
  = (fun r => if cond r then set r else r) <$> db !! i.
Proof.
  unfold sql_update. revert i.
  induction db as [|r db IH]; intros [|i]; simpl; auto.
Qed.

Lemma elem_of_sql_update cond set db r' :
  r' ∈ sql_update cond set db ->
  exists r, r ∈ db /\ r' = if cond r then set r else r.
Proof.
  unfold sql_update. rewrite list_elem_of_In, in_map_iff.
  intros (r & <- & Hr). exists r. now rewrite list_elem_of_In.
Qed.

(** No transaction adds, drops or renumbers rows. *)
Lemma sql_update_ids cond set db :
  (forall r, id (set r) = id r) ->
  map id (sql_update cond set db) = map id db.
Proof.
  intros Hset. unfold sql_update. rewrite map_map. apply map_ext.
  intros r. destruct (cond r); [apply Hset | reflexivity].
Qed.

(** C1.  [get_next_job] claims the oldest-created pending row that is
    eligible (never retried, or last updated more than two minutes
    ago).  The claimed row, and only it, becomes [processing] with
    [updated_at] refreshed, in the same transaction as the read; without
    an eligible pending row the answer is [None] and the table is left
    as it was.  A later claim returns another row, which is not older
    than the first one if it was eligible then: claims follow creation
    order. *)
Theorem get_next_job_claims_oldest_eligible now db claimed db' :
  get_next_job now db = (claimed, db') ->
  match claimed with
  | Some d =>
      exists row,
        row ∈ db /\ d = dict_of_row row /\ eligible now row
        /\ (forall r, r ∈ db -> eligible now r ->
              created_at row <= created_at r)
        /\ length db' = length db
        /\ (forall i r, db !! i = Some r ->
              db' !! i = Some (if id r =? id row
                               then mark_processing now r else r))
        /\ (forall r', r' ∈ db' -> id r' = id row ->
              status r' = processing /\ updated_at r' = now)
        /\ (forall now2 d2 db2,
              get_next_job now2 db' = (Some d2, db2) ->
              exists row2,
                row2 ∈ db /\ d2 = dict_of_row row2 /\ id row2 <> id row
                /\ (eligible now row2 -> created_at row <= created_at row2))
  | None => db' = db /\ forall r, r ∈ db -> ~ eligible now r
  end.
Proof.
  unfold get_next_job.
  destruct (oldest (List.filter (claimable now) db)) as [row|] eqn:Hsel.
  - intros [= <- <-].
    pose proof (oldest_elem _ _ Hsel) as Hin.
    apply elem_of_filter_claimable in Hin as [Hin Hel].
    assert (Hleast : forall r, r ∈ db -> eligible now r ->
              created_at row <= created_at r).
    { intros r Hr Her. apply (oldest_least _ _ Hsel).
      apply elem_of_filter_claimable. now split. }
    exists row. repeat split; try assumption.
    + apply Hel.
    + apply Hel.
    + apply sql_update_length.
    + intros i r Hi. rewrite sql_update_lookup, Hi. reflexivity.
    + apply elem_of_sql_update in H as (r & Hr & ->).
      destruct (id r =? id row) eqn:E; [reflexivity|].
      apply Z.eqb_neq in E. contradiction.
    + apply elem_of_sql_update in H as (r & Hr & ->).
      destruct (id r =? id row) eqn:E; [reflexivity|].
      apply Z.eqb_neq in E. contradiction.
    + intros now2 d2 db2.
      destruct (oldest (List.filter (claimable now2)
                 (sql_update (fun r => id r =? id row)
                             (mark_processing now) db))) as [row2|] eqn:H2;
        [|discriminate].
      intros [= <- <-].
      apply oldest_elem, elem_of_filter_claimable in H2 as [H2 [Hp _]].
      apply elem_of_sql_update in H2 as (r & Hr & ->).
      destruct (id r =? id row) eqn:E; [discriminate Hp|].
      apply Z.eqb_neq in E. exists r. repeat split; auto.
  - intros [= <- <-]. split; [reflexivity|].
    intros r Hr Her. apply oldest_None in Hsel.
    assert (Hf : r ∈ List.filter (claimable now) db)
      by (apply elem_of_filter_claimable; now split).
    rewrite Hsel in Hf. now apply elem_of_nil in Hf.
Qed.

Lemma lookup_job_elem job_id db row :
  lookup_job job_id db = Some row -> row ∈ db /\ id row = job_id.
Proof.
  unfold lookup_job, sql_select_one. intros H.
  apply find_some in H as [Hin Hid].
  split; [now apply list_elem_of_In | now apply Z.eqb_eq].
Qed.

Lemma lookup_job_sql_update job_id set db row :
  (forall r, id (set r) = id r) ->
  lookup_job job_id db = Some row ->
  lookup_job job_id (sql_update (fun r => id r =? job_id) set db)
  = Some (set row).
Proof.
  intros Hset. unfold lookup_job, sql_select_one, sql_update.
  induction db as [|r db IH]; simpl; [discriminate|].
  destruct (id r =? job_id) eqn:E.
  - intros [= ->]. now rewrite Hset, E.
  - rewrite E. exact IH.
Qed.

Lemma lookup_job_fail_job now job_id msg db row :
  lookup_job job_id db = Some row ->
  lookup_job job_id (fail_job now job_id msg db)
  = Some (mark_failure now
            (if retry_count row + 1 >? MAX_RETRIES then failed else pending)
            (retry_count row + 1) msg row).
Proof.
  intros H. unfold fail_job.
  change (sql_select_one (fun r => id r =? job_id) db)
    with (lookup_job job_id db).
  rewrite H. now apply lookup_job_sql_update.
Qed.

Lemma fail_repeatedly_counts failures : forall job_id db row,
  lookup_job job_id db = Some row ->
  exists row',
    lookup_job job_id (fail_repeatedly failures job_id db) = Some row'
    /\ retry_count row' = retry_count row + Z.of_nat (length failures)
    /\ (failures <> [] ->
        status row' = if retry_count row' >? MAX_RETRIES
                      then failed else pending).
Proof.
  induction failures as [|[now msg] rest IH]; intros job_id db row H.
  - exists row. simpl. repeat split; [assumption | lia | congruence].
  - simpl.
    pose proof (lookup_job_fail_job now job_id msg db row H) as H1.
    destruct (IH job_id _ _ H1) as (row' & Hl & Hc & Hs).
    exists row'. split; [exact Hl|]. simpl in Hc. split; [lia|].
    intros _. destruct rest as [|f rest'].
    + simpl in Hl. rewrite H1 in Hl. injection Hl as <-. reflexivity.
    + apply Hs. discriminate.
Qed.

(** C2.  [fail_job] adds exactly one to [retry_count]; when the new
    count exceeds 3 the status becomes [failed], which no claim picks
    up again, otherwise it becomes [pending]; the message is recorded.
    A job that starts with no retries is therefore [pending] after each
    of its first three failures and [failed] on exactly the fourth. *)
Theorem fail_job_counts_to_four job_id db row :
  lookup_job job_id db = Some row ->
  (forall now msg,
     exists row',
       lookup_job job_id (fail_job now job_id msg db) = Some row'
       /\ retry_count row' = retry_count row + 1
       /\ status row' = (if retry_count row + 1 >? 3 then failed else pending)
       /\ error row' = Some msg
       /\ (status row' = failed -> forall later, ~ eligible later row'))
  /\ (retry_count row = 0 ->
      forall failures,
        exists row',
          lookup_job job_id (fail_repeatedly failures job_id db) = Some row'
          /\ retry_count row' = Z.of_nat (length failures)
          /\ ((1 <= length failures <= 3)%nat -> status row' = pending)
          /\ (length failures = 4%nat -> status row' = failed)).
Proof.
  intros H. split.
  - intros now msg. eexists.
    split; [exact (lookup_job_fail_job now job_id msg db row H)|].
    simpl. repeat split; try reflexivity.
    intros Hf later [Hp _]. simpl in Hp. rewrite Hf in Hp. discriminate.
  - intros H0 failures.
    destruct (fail_repeatedly_counts failures job_id db row H)
      as (row' & Hl & Hc & Hs).
    exists row'. rewrite H0 in Hc. simpl in Hc.
    split; [exact Hl|]. split; [exact Hc|]. unfold MAX_RETRIES in Hs. split.
    + intros Hn. rewrite Hs by (intros ->; simpl in Hn; lia).
      destruct (retry_count row' >? 3) eqn:E; [|reflexivity].
      apply Z.gtb_lt in E. lia.
    + intros Hn. rewrite Hs by (intros ->; discriminate).
      destruct (retry_count row' >? 3) eqn:E; [reflexivity|].
      rewrite Z.gtb_ltb in E. apply Z.ltb_ge in E. lia.
Qed.

(** C7.  [reset_stuck_jobs] keeps every row in its place and moves to
    [pending] exactly the rows that are [processing] with [updated_at]
    older than the timeout (600 seconds with the default of 10
    minutes); a swept row keeps its [retry_count] and creation time,
    and every other row is left as it was. *)
Theorem reset_stuck_jobs_sweeps_only_stale now timeout_minutes db i r :
  db !! i = Some r ->
  exists r',
    reset_stuck_jobs now timeout_minutes db !! i = Some r'
    /\ length (reset_stuck_jobs now timeout_minutes db) = length db
    /\ (status r = processing
        /\ updated_at r < now - 60 * Z.of_N timeout_minutes ->
        status r' = pending /\ retry_count r' = retry_count r
        /\ id r' = id r /\ created_at r' = created_at r
        /\ payload r' = payload r)
    /\ (~ (status r = processing
           /\ updated_at r < now - 60 * Z.of_N timeout_minutes) ->
        r' = r)
    /\ 60 * Z.of_N DEFAULT_TIMEOUT_MINUTES = 600.
Proof.
  intros Hi. unfold reset_stuck_jobs.
  rewrite sql_update_lookup, Hi, sql_update_length. simpl.
  exists (if stuck now timeout_minutes r then mark_reset now r else r).
  split; [reflexivity|]. split; [reflexivity|]. unfold stuck.
  destruct (decide (status r = processing)) as [Hs|Hs].
  - rewrite bool_decide_true by exact Hs. simpl.
    destruct (Z.ltb_spec (updated_at r)
                         (now - 60 * Z.of_N timeout_minutes)) as [Hlt|Hge].
    + split; [intros _; simpl; repeat split; reflexivity|].
      split; [|reflexivity]. intros Hn. exfalso. apply Hn. now split.
    + split; [intros [_ ?]; lia|]. split; [intros _|]; reflexivity.
  - rewrite bool_decide_false by exact Hs. simpl.
    split; [intros [? _]; contradiction|]. split; [intros _|]; reflexivity.
Qed.

Lemma get_next_job_claims_oldest_eligible_witness :
  exists d db',
    get_next_job 1000 Samples.queue = (Some d, db') /\ d_id d = 3
    /\ exists row,
         row ∈ Samples.queue /\ d = dict_of_row row /\ eligible 1000 row.
Proof.
  eexists _, _. split; [reflexivity|]. split; [reflexivity|].
  destruct (get_next_job_claims_oldest_eligible 1000 Samples.queue _ _
              eq_refl) as (row & Hin & Hd & He & _).
  exists row. auto.
Defined.

Lemma fail_job_counts_to_four_witness :
  lookup_job 1 Samples.queue = Some (Samples.row 1 50 pending 0 50)
  /\ exists row',
       lookup_job 1
         (fail_repeatedly
            [(1000, "a"); (2000, "b"); (3000, "c"); (4000, "d")]%string
            1 Samples.queue) = Some row'
       /\ retry_count row' = 4 /\ status row' = failed.
Proof.
  split; [reflexivity|].
  destruct (fail_job_counts_to_four 1 Samples.queue _ eq_refl) as [_ H].
  destruct (H eq_refl
              [(1000, "a"); (2000, "b"); (3000, "c"); (4000, "d")]%string)
    as (row' & Hl & Hc & _ & Hf).
  exists row'. split; [exact Hl|]. split; [exact Hc|].
  apply Hf. reflexivity.
Defined.

Lemma reset_stuck_jobs_sweeps_only_stale_witness :
  Samples.queue !! 3%nat = Some (Samples.row 4 5 processing 0 5)
  /\ exists r',
       reset_stuck_jobs 1000 10 Samples.queue !! 3%nat = Some r'
       /\ status r' = pending /\ retry_count r' = 0.
Proof.
  split; [reflexivity|].
  destruct (reset_stuck_jobs_sweeps_only_stale 1000 10 Samples.queue 3 _
              eq_refl) as (r' & Hl & _ & Hs & _).
  exists r'. split; [exact Hl|].
  destruct Hs as (Hp & Hc & _); [split; reflexivity|].
  split; [exact Hp | exact Hc].
Defined.

End QueueFacts.

(** * Properties of the composition engine *)

Module ComposeFacts.
Import Pdf RebrandFolderApp.

Lemma base_merge_page p o : base (merge_page p o) = base p.
Proof. reflexivity. Qed.

Lemma overlays_merge_page p o :
  overlays (merge_page p o) = overlays p ++ [o].
Proof. reflexivity. Qed.

(** A loop whose turn [i] rewrites page object [first + i] by [g i] and
    adds it to the writer. *)
Section PageLoop.
Variable first : nat.
Variable g : nat -> page -> page.
Variable step : session -> nat -> session.
Hypothesis step_spec : forall s i p,
  heap s !! (first + i) = Some p ->
  step s i = {| heap := <[first + i := g i p]> (heap s);
                writer := writer s ++ [g i p] |}.

Lemma page_loop k : forall a s (pg : nat -> page),
  (forall i, a <= i < a + k -> heap s !! (first + i) = Some (pg i)) ->
  writer (fold_left step (seq a k) s)
  = writer s ++ map (fun i => g i (pg i)) (seq a k)
  /\ length (heap (fold_left step (seq a k) s)) = length (heap s)
  /\ (forall i, a <= i < a + k ->
        heap (fold_left step (seq a k) s) !! (first + i)
        = Some (g i (pg i)))
  /\ (forall j, j < first + a \/ first + a + k <= j ->
        heap (fold_left step (seq a k) s) !! j = heap s !! j).
Proof.
  induction k as [|k IH]; intros a s pg Hpg.
  - simpl. rewrite app_nil_r. repeat split; auto. intros i Hi. lia.
  - simpl. assert (Ha : heap s !! (first + a) = Some (pg a))
      by (apply Hpg; lia).
    rewrite (step_spec s a (pg a) Ha).
    pose proof (lookup_lt_Some _ _ _ Ha) as Hlt.
    set (s1 := {| heap := <[first + a := g a (pg a)]> (heap s);
                  writer := writer s ++ [g a (pg a)] |}).
    destruct (IH (S a) s1 pg) as (Hw & Hl & Hin & Hout).
    { intros i Hi. simpl. rewrite list_lookup_insert_ne by lia.
      apply Hpg. lia. }
    split; [|split; [|split]].
    + rewrite Hw. simpl. now rewrite <- app_assoc.
    + rewrite Hl. simpl. apply length_insert.
    + intros i Hi. destruct (decide (i = a)) as [->|Hne].
      * rewrite Hout by lia. simpl. now apply list_lookup_insert_eq.
      * apply Hin. lia.
    + intros j Hj. rewrite Hout by lia. simpl.
      apply list_lookup_insert_ne. lia.
Qed.
End PageLoop.

Lemma add_page_spec s loc p :
  heap s !! loc = Some p ->
  add_page loc s = {| heap := heap s; writer := writer s ++ [p] |}.
Proof. intros H. unfold add_page. now rewrite H. Qed.

Lemma merge_then_add s loc p o :
  heap s !! loc = Some p ->
  add_page loc (merge_page_at loc o s)
  = {| heap := <[loc := merge_page p o]> (heap s);
       writer := writer s ++ [merge_page p o] |}.
Proof.
  intros H. unfold merge_page_at. rewrite H. unfold add_page. simpl.
  rewrite list_lookup_insert_eq by (eapply lookup_lt_Some, H).
  reflexivity.
Qed.

Lemma add_unmerged s loc p :
  heap s !! loc = Some p ->
  add_page loc s = {| heap := <[loc := p]> (heap s);
                      writer := writer s ++ [p] |}.
Proof.
  intros H. rewrite (add_page_spec _ _ _ H). f_equal.
  symmetry. now apply list_insert_id.
Qed.

Lemma brand_page_spec h total first s i p :
  heap s !! (first + i) = Some p ->
  brand_page h total first s i
  = {| heap := <[first + i := branded h total i p]> (heap s);
       writer := writer s ++ [branded h total i p] |}.
Proof.
  intros H. unfold brand_page, branded, with_header.
  destruct (i <? total - 1); [destruct h|].
  - now apply merge_then_add.
  - now apply add_unmerged.
  - now apply add_unmerged.
Qed.

Lemma merge_content_page_spec h first s i p :
  heap s !! (first + i) = Some p ->
  merge_content_page h first s i
  = {| heap := <[first + i := with_header h p]> (heap s);
       writer := writer s ++ [with_header h p] |}.
Proof.
  intros H. unfold merge_content_page, with_header. destruct h.
  - now apply merge_then_add.
  - now apply add_unmerged.
Qed.

Lemma add_cover_page_spec env fs add_cover s :
  add_cover_page env fs add_cover s
  = {| heap := heap s; writer := writer s ++ cover_pages env fs add_cover |}.
Proof.
  unfold cover_pages, add_cover_page. destruct s as [hp w].
  destruct add_cover; simpl; [|now rewrite app_nil_r].
  destruct (create_cover_page env fs (COVER_IMAGE env)); simpl;
    [reflexivity | now rewrite app_nil_r].
Qed.

Lemma lookup_map {A B} (f : A -> B) (l : list A) i :
  map f l !! i = f <$> l !! i.
Proof. revert i. induction l; intros [|i]; simpl; auto. Qed.

Lemma lookup_nth (pages : list page) i d :
  i < length pages -> pages !! i = Some (nth i pages d).
Proof.
  intros H. destruct (nth_lookup_or_length pages i d); [assumption|lia].
Qed.

Lemma start_page_lt remove_first_page n :
  0 < n -> start_page remove_first_page n < n.
Proof.
  intros H. unfold start_page.
  destruct remove_first_page; simpl; [|exact H].
  destruct (Nat.ltb_spec 1 n); lia.
Qed.

Lemma apply_branding_to_pdf_closed env fs input_path output_dir
    header_style add_cover rename remove_first_page pages :
  PdfReader fs input_path = Some pages -> pages <> [] ->
  apply_branding_to_pdf env fs input_path output_dir header_style
                        add_cover rename remove_first_page
  = let output_path :=
      os_path_join env output_dir
                   (single_output_filename env rename input_path) in
    if can_write env output_path then
      (true, <[output_path :=
                 PdfFile (branded_pages env fs header_style add_cover
                                        remove_first_page pages)]> fs)
    else (false, fs).
Proof.
  intros Hread Hne. unfold apply_branding_to_pdf. rewrite Hread.
  destruct (length pages =? 0) eqn:E.
  { apply Nat.eqb_eq, length_zero_iff_nil in E. contradiction. }
  unfold open_reader, new_writer. simpl.
  rewrite add_cover_page_spec. simpl.
  set (s := {| heap := pages; writer := cover_pages env fs add_cover |}).
  set (h := header_overlay_for env fs header_style).
  set (n := length pages). set (a := start_page remove_first_page n).
  destruct (page_loop 0 (branded h n) (brand_page h n 0)
              (brand_page_spec h n 0) (n - a) a s
              (fun i => nth i pages (Content ""))) as (Hw & _).
  { intros i Hi. simpl. apply lookup_nth. fold n. lia. }
  unfold range. rewrite Hw. reflexivity.
Qed.

Lemma branded_pages_length env fs header_style add_cover remove_first_page
    pages :
  length (branded_pages env fs header_style add_cover remove_first_page
                        pages)
  = length (cover_pages env fs add_cover)
    + (length pages - start_page remove_first_page (length pages)).
Proof.
  unfold branded_pages, range.
  now rewrite length_app, length_map, length_seq.
Qed.

Lemma branded_pages_lookup env fs header_style add_cover remove_first_page
    pages i p :
  start_page remove_first_page (length pages) <= i ->
  pages !! i = Some p ->
  branded_pages env fs header_style add_cover remove_first_page pages
    !! (length (cover_pages env fs add_cover)
        + (i - start_page remove_first_page (length pages)))
  = Some (branded (header_overlay_for env fs header_style)
                  (length pages) i p).
Proof.
  intros Hi Hp. pose proof (lookup_lt_Some _ _ _ Hp) as Hlt.
  unfold branded_pages, range.
  rewrite lookup_app_r by lia.
  replace (length (cover_pages env fs add_cover)
           + (i - start_page remove_first_page (length pages))
           - length (cover_pages env fs add_cover))
    with (i - start_page remove_first_page (length pages)) by lia.
  rewrite lookup_map, lookup_seq_lt by lia. simpl.
  replace (start_page remove_first_page (length pages)
           + (i - start_page remove_first_page (length pages)))
    with i by lia.
  now rewrite (nth_lookup_Some _ _ _ _ Hp).
Qed.

Lemma branded_last h n p : branded h n (n - 1) p = p.
Proof. unfold branded. now rewrite Nat.ltb_irrefl. Qed.

Lemma branded_pages_last env fs header_style add_cover remove_first_page
    pages :
  pages <> [] ->
  last (branded_pages env fs header_style add_cover remove_first_page pages)
  = last pages.
Proof.
  intros Hne. assert (Hn : 0 < length pages).
  { destruct pages; [contradiction | simpl; lia]. }
  pose proof (start_page_lt remove_first_page _ Hn) as Hs.
  rewrite !last_lookup, branded_pages_length.
  destruct (pages !! pred (length pages)) as [p|] eqn:Hp.
  - replace (pred (length (cover_pages env fs add_cover)
                   + (length pages
                      - start_page remove_first_page (length pages))))
      with (length (cover_pages env fs add_cover)
            + (pred (length pages)
               - start_page remove_first_page (length pages))) by lia.
    rewrite (branded_pages_lookup _ _ _ _ _ _ _ p) by (assumption || lia).
    replace (pred (length pages)) with (length pages - 1) by lia.
    now rewrite branded_last.
  - apply lookup_ge_None in Hp. lia.
Qed.

(** C4.  A readable, non-empty source gives a written document made of
    the cover pages followed by the pages of the window.  Every page of
    the window but the source's last one is merged with the header
    overlay, keeping its own content underneath; the last page is
    passed through as it is.  For a 3-page source with
    [remove_first_page], [add_cover] and the branded header, cover and
    overlay rendered, the output is the cover, page 1 with the overlay
    and page 2 untouched: 3 pages. *)
Theorem apply_branding_to_pdf_spares_last_page env fs input_path output_dir
    header_style add_cover rename remove_first_page pages :
  PdfReader fs input_path = Some pages -> pages <> [] ->
  can_write env (os_path_join env output_dir
                   (single_output_filename env rename input_path)) = true ->
  exists out,
    apply_branding_to_pdf env fs input_path output_dir header_style
                          add_cover rename remove_first_page
    = (true,
       <[os_path_join env output_dir
           (single_output_filename env rename input_path)
         := PdfFile out]> fs)
    /\ let n := length pages in
       let start := start_page remove_first_page n in
       let cover := cover_pages env fs add_cover in
       let h := header_overlay_for env fs header_style in
       length out = length cover + (n - start)
       /\ take (length cover) out = cover
       /\ (forall i p, start <= i -> pages !! i = Some p ->
             out !! (length cover + (i - start))
             = Some (if i <? n - 1 then with_header h p else p))
       /\ last out = last pages
       /\ (forall i p o, start <= i < n - 1 -> pages !! i = Some p ->
             h = Some o ->
             exists q, out !! (length cover + (i - start)) = Some q
                       /\ base q = base p
                       /\ overlays q = overlays p ++ [o])
       /\ (forall c o p0 p1 p2,
             pages = [p0; p1; p2] -> remove_first_page = true ->
             add_cover = true -> header_style = "branded" ->
             create_cover_page env fs (COVER_IMAGE env) = Some c ->
             create_header_overlay env fs (Some (LEFT_LOGO env))
                                   (Some (RIGHT_LOGO env)) = Some o ->
             out = [c; merge_page p1 o; p2]).
Proof.
  intros Hread Hne Hw.
  exists (branded_pages env fs header_style add_cover remove_first_page
                        pages).
  split.
  { rewrite (apply_branding_to_pdf_closed _ _ _ _ _ _ _ _ pages Hread Hne).
    simpl. now rewrite Hw. }
  simpl. split; [apply branded_pages_length|].
  split; [unfold branded_pages; apply take_app_length|].
  split; [intros i p Hi Hp; now apply branded_pages_lookup|].
  split; [now apply branded_pages_last|]. split.
  - intros i p o Hi Hp Ho. eexists. split.
    + apply branded_pages_lookup; [lia | exact Hp].
    + unfold branded. destruct (Nat.ltb_spec i (length pages - 1)); [|lia].
      rewrite Ho. simpl. split; reflexivity.
  - intros c o p0 p1 p2 -> -> -> -> Hc Ho.
    unfold branded_pages, cover_pages, add_cover_page, header_overlay_for.
    rewrite Hc. simpl. rewrite Ho. reflexivity.
Qed.

Lemma apply_branding_to_pdf_spares_last_page_witness :
  PdfReader Samples.disk "in/a.pdf" = Some Samples.doc_a
  /\ apply_branding_to_pdf Samples.env Samples.disk "in/a.pdf" "out"
       "branded" true true true
     = (true,
        <["out/Asha Rao - CBC.pdf" :=
            PdfFile [Samples.cover_page;
                     merge_page (Content "a1") Samples.header_page;
                     Content "a2"]]> Samples.disk).
Proof.
  split; [reflexivity|].
  destruct (apply_branding_to_pdf_spares_last_page Samples.env Samples.disk
              "in/a.pdf" "out" "branded" true true true Samples.doc_a
              eq_refl ltac:(discriminate) eq_refl)
    as (out & Hrun & _ & _ & _ & _ & _ & H3).
  rewrite Hrun.
  rewrite (H3 Samples.cover_page Samples.header_page _ _ _ eq_refl eq_refl
              eq_refl eq_refl eq_refl eq_refl).
  reflexivity.
Defined.

(** C8.  The start index is 1 only when [remove_first_page] is set and
    the source has more than one page, else 0.  A 1-page source with
    [remove_first_page] therefore keeps its window [0, 1): the only
    page is not dropped, the written document ends with it,
    untouched. *)
Theorem apply_branding_to_pdf_keeps_only_page env fs input_path output_dir
    header_style add_cover rename p :
  PdfReader fs input_path = Some [p] ->
  can_write env (os_path_join env output_dir
                   (single_output_filename env rename input_path)) = true ->
  (forall remove_first_page n,
     start_page remove_first_page n
     = if remove_first_page && (1 <? n) then 1 else 0)
  /\ start_page true 1 = 0
  /\ range (start_page true 1) 1 = [0]
  /\ apply_branding_to_pdf env fs input_path output_dir header_style
                           add_cover rename true
     = (true,
        <[os_path_join env output_dir
            (single_output_filename env rename input_path)
          := PdfFile (cover_pages env fs add_cover ++ [p])]> fs).
Proof.
  intros Hread Hw. split; [reflexivity|].
  split; [reflexivity|]. split; [reflexivity|].
  rewrite (apply_branding_to_pdf_closed _ _ _ _ _ _ _ _ [p] Hread)
    by discriminate.
  simpl. rewrite Hw. reflexivity.
Qed.

Lemma apply_branding_to_pdf_keeps_only_page_witness :
  PdfReader Samples.disk "other/d.pdf" = Some [Content "d0"]
  /\ apply_branding_to_pdf Samples.env Samples.disk "other/d.pdf" "out"
       "branded" true true true
     = (true,
        <["out/Dev Nair - HBA1C.pdf" :=
            PdfFile [Samples.cover_page; Content "d0"]]> Samples.disk).
Proof.
  split; [reflexivity|].
  destruct (apply_branding_to_pdf_keeps_only_page Samples.env Samples.disk
              "other/d.pdf" "out" "branded" true true (Content "d0")
              eq_refl eq_refl) as (_ & _ & _ & Hrun).
  rewrite Hrun. reflexivity.
Defined.

(** *** The merge of a patient group *)

Lemma combine_app_same {A B} (l1 l2 : list A) (k1 k2 : list B) :
  length l1 = length k1 ->
  combine (l1 ++ l2) (k1 ++ k2) = combine l1 k1 ++ combine l2 k2.
Proof.
  revert k1. induction l1 as [|a l1 IH]; intros [|b k1]; simpl;
    try discriminate; [reflexivity|].
  intros [= H]. now rewrite IH.
Qed.

Lemma enumerate_snoc {A} (l : list A) x :
  enumerate (l ++ [x]) = enumerate l ++ [(length l, x)].
Proof.
  unfold enumerate. rewrite length_app. simpl.
  rewrite Nat.add_1_r, seq_S. simpl.
  rewrite combine_app_same by apply length_seq. reflexivity.
Qed.

Lemma merge_reports_app fs h remove_first_page group_len items1 items2 st :
  merge_reports fs h remove_first_page group_len (items1 ++ items2) st
  = match merge_reports fs h remove_first_page group_len items1 st with
    | Some st' => merge_reports fs h remove_first_page group_len items2 st'
    | None => None
    end.
Proof.
  revert st. induction items1 as [|[idx [[path pn] tn]] rest IH];
    intros st; simpl; [reflexivity|].
  destruct (merge_report fs h remove_first_page group_len idx path st);
    [apply IH | reflexivity].
Qed.

Lemma merge_report_readable fs h remove_first_page group_len idx path st :
  is_Some (PdfReader fs path) ->
  is_Some (merge_report fs h remove_first_page group_len idx path st).
Proof.
  intros [pages Hp]. unfold merge_report. rewrite Hp.
  destruct (open_reader pages (pdf st)) as [s first].
  destruct (length pages =? 0); [eauto|].
  destruct (length pages <=? start_page remove_first_page (length pages));
    eauto.
Qed.

Lemma merge_reports_readable fs h remove_first_page group_len items :
  forall st,
    (forall item, item ∈ items -> is_Some (PdfReader fs item.2.1.1)) ->
    is_Some (merge_reports fs h remove_first_page group_len items st).
Proof.
  induction items as [|[idx [[path pn] tn]] rest IH]; intros st Hall;
    simpl; [eauto|].
  destruct (merge_report_readable fs h remove_first_page group_len idx
              path st) as [st' Hst'].
  { apply (Hall (idx, (path, pn, tn))). left. }
  rewrite Hst'. apply IH. intros item Hitem. apply Hall. now right.
Qed.

Lemma elem_of_enumerate {A} (l : list A) i x :
  (i, x) ∈ enumerate l -> x ∈ l.
Proof.
  unfold enumerate. rewrite !list_elem_of_In. apply in_combine_r.
Qed.

(** The last report of a group, two pages long, with the first page
    removed: its page 1 is merged with the header, added, and kept as
    the terminal page. *)
Lemma merge_report_two_pages_last fs h group_len path st p0 p1 :
  PdfReader fs path = Some [p0; p1] ->
  merge_report fs h true group_len (group_len - 1) path st
  = Some {| pdf := {| heap := <[length (heap (pdf st)) + 1
                                 := with_header h p1]>
                                (heap (pdf st) ++ [p0; p1]);
                      writer := writer (pdf st) ++ [with_header h p1] |};
            tc_page := Some (length (heap (pdf st)) + 1) |}.
Proof.
  intros Hp. unfold merge_report. rewrite Hp.
  unfold open_reader. simpl. rewrite Nat.eqb_refl. simpl.
  rewrite (merge_content_page_spec h _ _ 1 p1); [reflexivity|].
  simpl. rewrite lookup_app_r by lia.
  now replace (length (heap (pdf st)) + 1 - length (heap (pdf st)))
    with 1 by lia.
Qed.

(** C10.  In the merge of a group of several reports with
    [remove_first_page], a last report of exactly two pages has its
    content end moved from 1 to 2, so its page 1 is emitted as content,
    merged with the header overlay; the same page object is the
    terminal page appended at the end, which therefore carries the
    overlay too: the merged document ends with that page twice.  Both
    copies have the content of page 1 and, on top of the overlays it
    had, the header overlay: neither is the page as the report had
    it. *)
Theorem merge_two_page_last_report_repeats_page env fs output_folder h
    add_cover (front : list report) last_path last_name last_test p0 p1 :
  front <> [] ->
  (forall r, r ∈ front -> is_Some (PdfReader fs r.1.1)) ->
  PdfReader fs last_path = Some [p0; p1] ->
  let group := front ++ [(last_path, last_name, last_test)] in
  exists st,
    merge_reports fs h true (length group) (enumerate front)
      {| pdf := add_cover_page env fs add_cover new_writer;
         tc_page := None |} = Some st
    /\ content_end (start_page true 2) 2 = 2
    /\ merged_pages env fs h add_cover true group
       = Some (writer (pdf st) ++ [with_header h p1; with_header h p1])
    /\ (forall o, h = Some o ->
          merged_pages env fs h add_cover true group
          = Some (writer (pdf st) ++ [merge_page p1 o; merge_page p1 o]))
    /\ (forall o, h = Some o ->
          exists out q,
            merged_pages env fs h add_cover true group = Some out
            /\ length out = length (writer (pdf st)) + 2
            /\ out !! length (writer (pdf st)) = Some q
            /\ out !! (length (writer (pdf st)) + 1) = Some q
            /\ base q = base p1
            /\ overlays q = overlays p1 ++ [o]
            /\ q <> p1)
    /\ (can_write env (os_path_join env output_folder
                         (merged_output_filename group)) = true ->
        merge_group env fs output_folder h add_cover true group
        = (true,
           <[os_path_join env output_folder (merged_output_filename group)
             := PdfFile (writer (pdf st)
                         ++ [with_header h p1; with_header h p1])]> fs)).
Proof.
  intros Hfront Hall Hlast group.
  destruct (merge_reports_readable fs h true (length group)
              (enumerate front)
              {| pdf := add_cover_page env fs add_cover new_writer;
                 tc_page := None |}) as [st Hst].
  { intros [i r] Hi. apply elem_of_enumerate in Hi. now apply Hall. }
  assert (Hrun : merged_pages env fs h add_cover true group
                 = Some (writer (pdf st)
                         ++ [with_header h p1; with_header h p1])).
  { unfold merged_pages, group. rewrite enumerate_snoc, merge_reports_app.
    fold group. rewrite Hst. simpl.
    replace (length front) with (length group - 1)
      by (unfold group; rewrite length_app; simpl; lia).
    rewrite (merge_report_two_pages_last _ _ _ _ _ p0 p1 Hlast). simpl.
    unfold add_page. simpl.
    rewrite list_lookup_insert_eq
      by (rewrite length_app; simpl; lia).
    simpl. now rewrite <- app_assoc. }
  exists st. split; [exact Hst|]. split; [reflexivity|].
  split; [exact Hrun|]. split; [|split].
  - intros o ->. exact Hrun.
  - intros o ->. exists (writer (pdf st) ++ [merge_page p1 o; merge_page p1 o]).
    exists (merge_page p1 o).
    split; [exact Hrun|]. split; [rewrite length_app; reflexivity|].
    split; [rewrite lookup_app_r by lia; now rewrite Nat.sub_diag|].
    split.
    { rewrite lookup_app_r by lia.
      now replace (length (writer (pdf st)) + 1 - length (writer (pdf st)))
        with 1 by lia. }
    split; [reflexivity|]. split; [reflexivity|].
    intros Heq. apply (f_equal overlays) in Heq. simpl in Heq.
    apply (f_equal (@length page)) in Heq. rewrite length_app in Heq.
    simpl in Heq. lia.
  - intros Hw. unfold merge_group. now rewrite Hrun, Hw.
Qed.

Lemma merge_two_page_last_report_repeats_page_witness :
  PdfReader Samples.disk "other/c.pdf" = Some [Content "c0"; Content "c1"]
  /\ merged_pages Samples.env Samples.disk (Some Samples.header_page) true
       true [Samples.report_a; Samples.report_c]
     = Some [Samples.cover_page;
             merge_page (Content "a1") Samples.header_page;
             merge_page (Content "c1") Samples.header_page;
             merge_page (Content "c1") Samples.header_page].
Proof.
  split; [reflexivity|].
  destruct (merge_two_page_last_report_repeats_page Samples.env
              Samples.disk "out" (Some Samples.header_page) true
              [Samples.report_a] "other/c.pdf" "Asha Rao" "TSH"
              (Content "c0") (Content "c1"))
    as (st & Hst & _ & _ & Hrun & _ & _).
  - discriminate.
  - intros r Hr. apply list_elem_of_singleton in Hr as ->.
    exists Samples.doc_a. reflexivity.
  - reflexivity.
  - etransitivity; [exact (Hrun Samples.header_page eq_refl)|].
    vm_compute in Hst. injection Hst as <-. reflexivity.
Defined.

Lemma merged_pages_two_three_page_reports env fs h path_a path_b pa ta pb tb
    a0 a1 a2 b0 b1 b2 c :
  PdfReader fs path_a = Some [a0; a1; a2] ->
  PdfReader fs path_b = Some [b0; b1; b2] ->
  create_cover_page env fs (COVER_IMAGE env) = Some c ->
  merged_pages env fs h true true [(path_a, pa, ta); (path_b, pb, tb)]
  = Some [c; with_header h a1; with_header h b1; b2].
Proof.
  intros Ha Hb Hc. unfold merged_pages, add_cover_page. rewrite Hc.
  unfold enumerate. simpl. unfold merge_report. rewrite Ha. simpl.
  rewrite Hb. simpl. destruct h; reflexivity.
Qed.

(** C3, as the code has it.  Two 3-page reports with the same
    [(name, age)] key form one group; with [remove_first_page] and
    [add_cover] their merge has exactly 4 pages: the cover, page 1 of
    each report after the header step, and once, at the end and
    untouched, the terminal page of the last report.  The first and the
    terminal page of every report are left out of the content. *)
Theorem merge_two_three_page_reports env fs input_folder output_folder
    header_style name_a name_b pa ta age_a pb tb age_b
    a0 a1 a2 b0 b1 b2 c :
  let path_a := os_path_join env input_folder name_a in
  let path_b := os_path_join env input_folder name_b in
  let h := header_overlay_for env fs header_style in
  let out := [c; with_header h a1; with_header h b1; b2] in
  let output_path :=
    os_path_join env output_folder
      (pa +:+ " - " +:+ (ta +:+ " + " +:+ tb) +:+ ".pdf") in
  pdf_files env input_folder = [name_a; name_b] ->
  extract_info_from_pdf env path_a = (pa, ta, age_a) ->
  extract_info_from_pdf env path_b = (pb, tb, age_b) ->
  str_lower env (str_strip env pa) = str_lower env (str_strip env pb) ->
  str_strip env age_a = str_strip env age_b ->
  PdfReader fs path_a = Some [a0; a1; a2] ->
  PdfReader fs path_b = Some [b0; b1; b2] ->
  create_cover_page env fs (COVER_IMAGE env) = Some c ->
  can_write env output_path = true ->
  group_by_patient env input_folder [name_a; name_b]
  = [((str_lower env (str_strip env pa), str_strip env age_a),
      [(path_a, pa, ta); (path_b, pb, tb)])]
  /\ merged_pages env fs h true true [(path_a, pa, ta); (path_b, pb, tb)]
     = Some out
  /\ length out = 4
  /\ (forall o, h = Some o ->
        out = [c; merge_page a1 o; merge_page b1 o; b2])
  /\ merge_patient_reports env fs input_folder output_folder header_style
                           true true
     = (1, 1, <[output_path := PdfFile out]> fs).
Proof.
  intros path_a path_b h out output_path Hfiles Ha Hb Hname Hage Hra Hrb
    Hc Hw.
  assert (Hgroups : group_by_patient env input_folder [name_a; name_b]
            = [((str_lower env (str_strip env pa), str_strip env age_a),
                [(path_a, pa, ta); (path_b, pb, tb)])]).
  { unfold group_by_patient. simpl. fold path_a path_b.
    rewrite Ha, Hb. simpl. rewrite <- Hname, <- Hage.
    now rewrite decide_True by reflexivity. }
  pose proof (merged_pages_two_three_page_reports env fs h path_a path_b
                pa ta pb tb a0 a1 a2 b0 b1 b2 c Hra Hrb Hc) as Hpages.
  split; [exact Hgroups|]. split; [exact Hpages|].
  split; [reflexivity|]. split.
  - intros o Ho. unfold out. now rewrite Ho.
  - unfold merge_patient_reports. rewrite Hfiles, Hgroups. simpl.
    unfold merge_group. unfold h in Hpages. rewrite Hpages.
    unfold merged_output_filename. simpl.
    unfold output_path in Hw. now rewrite Hw.
Qed.

Lemma merge_two_three_page_reports_witness :
  merge_patient_reports Samples.env Samples.disk "in" "out" "branded"
                        true true
  = (1, 1,
     <["out/Asha Rao - CBC + LIPID.pdf" :=
         PdfFile [Samples.cover_page;
                  merge_page (Content "a1") Samples.header_page;
                  merge_page (Content "b1") Samples.header_page;
                  Content "b2"]]> Samples.disk).
Proof.
  destruct (merge_two_three_page_reports Samples.env Samples.disk "in"
              "out" "branded" "a.pdf" "b.pdf"
              "Asha Rao" "CBC" "34" "Asha Rao" "LIPID" "34"
              (Content "a0") (Content "a1") (Content "a2")
              (Content "b0") (Content "b1") (Content "b2")
              Samples.cover_page
              eq_refl eq_refl eq_refl eq_refl eq_refl eq_refl eq_refl
              eq_refl eq_refl) as (_ & _ & _ & _ & Hrun).
  exact Hrun.
Defined.

(** The merge of the two sample reports has 4 pages, not 6. *)
Lemma merge_two_three_page_reports_not_six :
  length Samples.doc_a = 3 /\ length Samples.doc_b = 3
  /\ group_by_patient Samples.env "in" ["a.pdf"; "b.pdf"]
     = [(("asha rao", "34"), [Samples.report_a; Samples.report_b])]
  /\ exists out,
       merged_pages Samples.env Samples.disk
         (header_overlay_for Samples.env Samples.disk "branded") true true
         [Samples.report_a; Samples.report_b] = Some out
       /\ length out = 4 /\ length out <> 6.
Proof.
  split; [reflexivity|]. split; [reflexivity|]. split; [reflexivity|].
  eexists. split; [reflexivity|]. split; [reflexivity | discriminate].
Qed.

(** *** Output names *)

Lemma apply_branding_to_pdf_written env fs input_path output_dir
    header_style add_cover rename remove_first_page fs' :
  apply_branding_to_pdf env fs input_path output_dir header_style
                        add_cover rename remove_first_page = (true, fs') ->
  exists out,
    fs' = <[os_path_join env output_dir
              (single_output_filename env rename input_path)
            := PdfFile out]> fs.
Proof.
  unfold apply_branding_to_pdf.
  destruct (PdfReader fs input_path) as [pages|]; [|discriminate].
  destruct (length pages =? 0); [discriminate|].
  destruct (open_reader pages new_writer) as [s first].
  destruct (can_write env _); [|discriminate].
  intros [= <-]. eauto.
Qed.

Lemma merge_group_written env fs output_folder h add_cover
    remove_first_page group fs' :
  merge_group env fs output_folder h add_cover remove_first_page group
  = (true, fs') ->
  exists out,
    fs' = <[os_path_join env output_folder (merged_output_filename group)
            := PdfFile out]> fs.
Proof.
  unfold merge_group.
  destruct (merged_pages env fs h add_cover remove_first_page group)
    as [pages|]; [|discriminate].
  destruct (can_write env _); [|discriminate].
  intros [= <-]. eauto.
Qed.

(** The worker's [apply_branding] leaves a file at the output path
    whenever it returns, and that file is the source itself when the
    branding attempt raised. *)
Lemma worker_apply_branding_output env fs input_path output_path fs' :
  Worker.apply_branding env fs input_path output_path = Ok fs' ->
  is_Some (fs' !! output_path)
  /\ (Worker.try_branding env fs input_path output_path = None ->
      exists f, fs !! input_path = Some f
                /\ fs' = <[output_path := f]> fs).
Proof.
  unfold Worker.apply_branding.
  destruct (Worker.try_branding env fs input_path output_path)
    as [fs1|] eqn:Htry.
  - intros [= <-]. split; [|discriminate].
    unfold Worker.try_branding, shutil_copy in Htry.
    destruct (negb (os_path_exists fs Worker.COVER_IMAGE)).
    + destruct (fs !! input_path); [|discriminate].
      destruct (bool_decide (input_path = output_path)); [discriminate|].
      destruct (can_write env output_path); [|discriminate].
      injection Htry as <-. rewrite lookup_insert_eq. eauto.
    + destruct (PdfReader fs input_path) as [pages|]; [|discriminate].
      destruct (open_reader pages new_writer) as [s first].
      destruct (can_write env output_path); [|discriminate].
      injection Htry as <-. rewrite lookup_insert_eq. eauto.
  - unfold shutil_copy.
    destruct (fs !! input_path) as [f|]; [|discriminate].
    destruct (bool_decide (input_path = output_path)); [discriminate|].
    destruct (can_write env output_path); [|discriminate].
    intros [= <-]. rewrite lookup_insert_eq. split; eauto.
Qed.

(** The name under which the worker leaves the branded file. *)
Lemma worker_prepare_file_name env job fs temp_path p_name final_path fs' :
  Worker.prepare env job fs = (Ok (temp_path, p_name, final_path), fs') ->
  exists t_name,
    extract_test_name env (pdf_text env temp_path) = Ok t_name
    /\ final_path
       = os_path_join env (todays_download_dir env)
           (Worker.final_fname env p_name t_name)
    /\ is_Some (fs' !! final_path).
Proof.
  unfold Worker.prepare, Worker.bind at 1.
  destruct (Worker.resolve_source env job fs) as [[[temp|]|msg] fs1];
    [| |discriminate].
  - unfold Worker.bind, Worker.lift, Worker.get_files, Worker.put_files,
      Worker.ret.
    destruct (extract_patient_name env temp _) as [[patient source]|m1];
      [|discriminate].
    destruct (extract_test_name env (pdf_text env temp)) as [t_name|m2]
      eqn:Htest; [|discriminate].
    simpl.
    destruct (Worker.apply_branding env fs1 temp _) as [fs2|m3] eqn:Hrun;
      [|discriminate].
    intros [= <- <- <- <-]. exists t_name.
    split; [exact Htest|]. split; [reflexivity|].
    now apply worker_apply_branding_output in Hrun as [Hout _].
  - unfold Worker.bind, Worker.lift, Worker.raise.
    destruct (extract_patient_name_none env _) as [named|m1];
      [|discriminate].
    destruct (extract_test_name env (pdf_text_none env)) as [t_name|m2];
      discriminate.
Qed.

(** C9, as the code has it.  With renaming on, the composition engine
    writes a single document under the patient name, space-hyphen-space,
    the test name and [.pdf]; a merged group is written under the
    patient name of its first report, space-hyphen-space, all test names
    joined by space-plus-space, and [.pdf].  The worker pipeline names
    its file differently: whenever [process_job] gets as far as the
    sinks, the branded file it hands to them is in the download
    directory of the day under the sanitised patient name, an
    underscore, the sanitised test name and [.pdf], where a name that
    is empty once sanitised is replaced by [Unknown], respectively
    [REPORT]. *)
Theorem output_file_names env :
  (forall fs input_path output_dir header_style add_cover
          remove_first_page fs' p_name t_name age,
     extract_info_from_pdf env input_path = (p_name, t_name, age) ->
     apply_branding_to_pdf env fs input_path output_dir header_style
                           add_cover true remove_first_page = (true, fs') ->
     single_output_filename env true input_path
     = p_name +:+ " - " +:+ t_name +:+ ".pdf"
     /\ is_Some (fs' !! os_path_join env output_dir
                         (p_name +:+ " - " +:+ t_name +:+ ".pdf")))
  /\ (forall fs output_folder h add_cover remove_first_page fs'
             path p_name t_name (rest : list report),
        merge_group env fs output_folder h add_cover remove_first_page
                    ((path, p_name, t_name) :: rest) = (true, fs') ->
        merged_output_filename ((path, p_name, t_name) :: rest)
        = p_name +:+ " - "
          +:+ str_join " + " (t_name :: map (fun g : report => g.2) rest)
          +:+ ".pdf"
        /\ is_Some (fs' !! os_path_join env output_folder
               (p_name +:+ " - "
                +:+ str_join " + "
                      (t_name :: map (fun g : report => g.2) rest)
                +:+ ".pdf")))
  /\ (forall t1 t2 t3,
        str_join " + " [t1; t2; t3] = t1 +:+ " + " +:+ t2 +:+ " + " +:+ t3)
  /\ (forall p_name t_name,
        Worker.final_fname env p_name t_name
        = Worker.safe_name env p_name "Unknown" +:+ "_"
          +:+ Worker.safe_name env t_name "REPORT" +:+ ".pdf")
  /\ (forall job fs temp_path p_name final_path fs',
        Worker.prepare env job fs
        = (Ok (temp_path, p_name, final_path), fs') ->
        exists t_name safe_p safe_t,
          extract_test_name env (pdf_text env temp_path) = Ok t_name
          /\ final_path
             = os_path_join env (todays_download_dir env)
                 (safe_p +:+ "_" +:+ safe_t +:+ ".pdf")
          /\ is_Some (fs' !! final_path)
          /\ (Worker.process_job_call env job fs).1
             = (if upload_to_drive env fs' final_path
                   || upload_to_api env fs' final_path p_name
                then Worker.CompleteJob (QueueDB.d_id job)
                else Worker.FailJob (QueueDB.d_id job)
                       "Both Drive and API uploads failed")
          /\ (str_strip env (strip_illegal p_name) = "" ->
              safe_p = "Unknown")
          /\ (str_strip env (strip_illegal p_name) <> "" ->
              safe_p = str_strip env (strip_illegal p_name))
          /\ (str_strip env (strip_illegal t_name) = "" ->
              safe_t = "REPORT")
          /\ (str_strip env (strip_illegal t_name) <> "" ->
              safe_t = str_strip env (strip_illegal t_name))).
Proof.
  split; [|split; [|split; [|split]]].
  - intros fs input_path output_dir header_style add_cover
      remove_first_page fs' p_name t_name age Hinfo Hrun.
    assert (Hname : single_output_filename env true input_path
                    = p_name +:+ " - " +:+ t_name +:+ ".pdf")
      by (unfold single_output_filename; now rewrite Hinfo).
    split; [exact Hname|].
    apply apply_branding_to_pdf_written in Hrun as [out ->].
    rewrite Hname, lookup_insert_eq. eauto.
  - intros fs output_folder h add_cover remove_first_page fs' path p_name
      t_name rest Hrun.
    split; [reflexivity|].
    apply merge_group_written in Hrun as [out ->].
    unfold merged_output_filename. simpl map.
    rewrite lookup_insert_eq. eauto.
  - reflexivity.
  - reflexivity.
  - intros job fs temp_path p_name final_path fs' Hprep.
    destruct (worker_prepare_file_name _ _ _ _ _ _ _ Hprep)
      as (t_name & Htest & Hpath & Hfile).
    exists t_name, (Worker.safe_name env p_name "Unknown"),
      (Worker.safe_name env t_name "REPORT").
    split; [exact Htest|]. split; [exact Hpath|]. split; [exact Hfile|].
    split.
    { unfold Worker.process_job_call. rewrite Hprep.
      now destruct (upload_to_drive env fs' final_path
                    || upload_to_api env fs' final_path p_name). }
    unfold Worker.safe_name, str_or.
    split; [|split; [|split]]; intros H;
      solve [ now rewrite bool_decide_true by exact H
            | now rewrite bool_decide_false by exact H ].
Qed.

Lemma output_file_names_witness :
  single_output_filename Samples.env true "in/a.pdf" = "Asha Rao - CBC.pdf"
  /\ is_Some ((apply_branding_to_pdf Samples.env Samples.disk "in/a.pdf"
                 "out" "branded" true true true).2
              !! "out/Asha Rao - CBC.pdf").
Proof.
  destruct (output_file_names Samples.env) as (Hsingle & _).
  exact (Hsingle Samples.disk "in/a.pdf" "out" "branded" true true
           (apply_branding_to_pdf Samples.env Samples.disk "in/a.pdf"
              "out" "branded" true true true).2
           "Asha Rao" "CBC" "34" eq_refl eq_refl).
Defined.

(** The worker's name for a report is not the hyphenated one. *)
Lemma worker_file_name_has_underscore :
  Worker.final_fname Samples.env "Asha Rao" "CBC" = "Asha Rao_CBC.pdf"
  /\ Worker.final_fname Samples.env "Asha Rao" "CBC"
     <> "Asha Rao" +:+ " - " +:+ "CBC" +:+ ".pdf"
  /\ (Worker.prepare Samples.env Samples.file_job Samples.disk).1
     = Ok ("in/a.pdf", "Asha Rao",
           "/srv/download_pdf/2026-01-05/Asha Rao_CBC.pdf").
Proof.
  split; [reflexivity|]. split; [discriminate|].
  vm_compute. reflexivity.
Qed.

(** *** Failure inside the transform *)

Lemma apply_branding_to_pdf_unreadable env fs input_path output_dir
    header_style add_cover rename remove_first_page :
  PdfReader fs input_path = None ->
  apply_branding_to_pdf env fs input_path output_dir header_style
                        add_cover rename remove_first_page = (false, fs).
Proof. intros H. unfold apply_branding_to_pdf. now rewrite H. Qed.


End ComposeFacts.

(** * Properties of the worker *)

Module WorkerFacts.
Import Pdf QueueDB Worker.

Lemma process_job_call_prepared env job fs temp_path p_name final_path fs' :
  prepare env job fs = (Ok (temp_path, p_name, final_path), fs') ->
  process_job_call env job fs
  = if upload_to_drive env fs' final_path
       || upload_to_api env fs' final_path p_name
    then (CompleteJob (d_id job),
          (cleanup env job temp_path final_path fs').1)
    else (FailJob (d_id job) "Both Drive and API uploads failed", fs').
Proof. intros H. unfold process_job_call. now rewrite H. Qed.

(** C5.  Once the branded file is there, the worker asks both sinks.
    If at least one accepted the file it calls [complete_job], whatever
    the other sink answered; it calls [fail_job] with the combined
    message exactly when both refused. *)
Theorem process_job_completes_on_any_sink env now job w temp_path p_name
    final_path fs' :
  prepare env job (disk w) = (Ok (temp_path, p_name, final_path), fs') ->
  let drive_ok := upload_to_drive env fs' final_path in
  let api_ok := upload_to_api env fs' final_path p_name in
  let call := (process_job_call env job (disk w)).1 in
  (drive_ok = true \/ api_ok = true ->
   call = CompleteJob (d_id job)
   /\ jobs (process_job env now job w)
      = complete_job now (d_id job) (jobs w))
  /\ (drive_ok = false /\ api_ok = false ->
      call = FailJob (d_id job) "Both Drive and API uploads failed"
      /\ jobs (process_job env now job w)
         = fail_job now (d_id job) "Both Drive and API uploads failed"
                    (jobs w))
  /\ (forall job_id msg,
        call = FailJob job_id msg -> drive_ok = false /\ api_ok = false).
Proof.
  intros Hprep drive_ok api_ok call.
  pose proof (process_job_call_prepared _ _ _ _ _ _ _ Hprep) as Hcall.
  fold drive_ok api_ok in Hcall.
  unfold call, process_job. rewrite Hcall.
  destruct drive_ok, api_ok; simpl; (split; [|split]);
    try (intros [H|H]; try discriminate H; split; reflexivity);
    try (intros [H1 H2]; try discriminate; split; reflexivity);
    try (intros ? ? H; try discriminate H; split; reflexivity).
Qed.

Lemma process_job_completes_on_any_sink_witness :
  (process_job_call Samples.env Samples.file_job Samples.disk).1
  = CompleteJob 1
  /\ (process_job_call Samples.env_offline Samples.file_job Samples.disk).1
     = FailJob 1 "Both Drive and API uploads failed".
Proof.
  split.
  - refine (proj1 (proj1 (process_job_completes_on_any_sink Samples.env
              1000 Samples.file_job Samples.world "in/a.pdf" "Asha Rao"
              "/srv/download_pdf/2026-01-05/Asha Rao_CBC.pdf"
              (prepare Samples.env Samples.file_job Samples.disk).2 _) _)).
    + vm_compute. reflexivity.
    + right. reflexivity.
  - refine (proj1 (proj1 (proj2 (process_job_completes_on_any_sink
              Samples.env_offline
              1000 Samples.file_job Samples.world "in/a.pdf" "Asha Rao"
              "/srv/download_pdf/2026-01-05/Asha Rao_CBC.pdf"
              (prepare Samples.env_offline Samples.file_job
                       Samples.disk).2 _)) _)).
    + vm_compute. reflexivity.
    + split; reflexivity.
Defined.

End WorkerFacts.

(** * Further properties of the job store *)

Module QueueMore.
Import QueueDB QueueFacts.
Local Open Scope Z_scope.

Lemma sql_update_fixed_columns cond set db :
  (forall r, fixed_columns (set r) = fixed_columns r) ->
  map fixed_columns (sql_update cond set db) = map fixed_columns db.
Proof.
  intros Hset. unfold sql_update. rewrite map_map. apply map_ext.
  intros r. destruct (cond r); [apply Hset | reflexivity].
Qed.

(** Claiming, completing, failing and sweeping never add, drop or
    reorder rows, and never touch the id, uid, tenant, job type, payload
    or creation time of a row. *)
Theorem transactions_keep_fixed_columns now job_id msg timeout_minutes db :
  map fixed_columns (get_next_job now db).2 = map fixed_columns db
  /\ map fixed_columns (complete_job now job_id db) = map fixed_columns db
  /\ map fixed_columns (fail_job now job_id msg db) = map fixed_columns db
  /\ map fixed_columns (reset_stuck_jobs now timeout_minutes db)
     = map fixed_columns db.
Proof.
  split; [|split; [|split]].
  - unfold get_next_job.
    destruct (oldest (List.filter (claimable now) db)); simpl;
      [now apply sql_update_fixed_columns | reflexivity].
  - now apply sql_update_fixed_columns.
  - unfold fail_job.
    destruct (sql_select_one (fun r => id r =? job_id) db);
      [now apply sql_update_fixed_columns | reflexivity].
  - now apply sql_update_fixed_columns.
Qed.

Lemma sql_update_none cond set db :
  (forall r, r ∈ db -> cond r = false) -> sql_update cond set db = db.
Proof.
  intros H. unfold sql_update. induction db as [|r db IH]; [reflexivity|].
  simpl. rewrite (H r) by left. f_equal. apply IH.
  intros r' Hr'. apply H. now right.
Qed.

(** Completing or failing an id that no row carries changes nothing. *)
Theorem unknown_job_id_changes_nothing now job_id msg db :
  (forall r, r ∈ db -> id r <> job_id) ->
  complete_job now job_id db = db /\ fail_job now job_id msg db = db.
Proof.
  intros Hid.
  assert (Hcond : forall r, r ∈ db -> (id r =? job_id) = false)
    by (intros r Hr; apply Z.eqb_neq; now apply Hid).
  split; [now apply sql_update_none|].
  unfold fail_job.
  destruct (sql_select_one (fun r => id r =? job_id) db) as [row|] eqn:E;
    [|reflexivity].
  now apply sql_update_none.
Qed.

Lemma unknown_job_id_changes_nothing_witness :
  complete_job 1000 77 Samples.queue = Samples.queue
  /\ fail_job 1000 77 "lost" Samples.queue = Samples.queue.
Proof.
  apply (unknown_job_id_changes_nothing 1000 77 "lost" Samples.queue).
  intros r Hr. unfold Samples.queue in Hr.
  repeat (apply elem_of_cons in Hr as [->|Hr]; [discriminate|]).
  now apply elem_of_nil in Hr.
Defined.

(** [complete_job] marks the rows with the given id as [completed] and
    refreshes their [updated_at], keeping their retry count and last
    error; every other row stays as it is.  Completing the same job
    again leaves the table as one completion at the later time would. *)
Theorem complete_job_marks_only_that_job now job_id db i r :
  db !! i = Some r ->
  exists r',
    complete_job now job_id db !! i = Some r'
    /\ (id r = job_id ->
        status r' = completed /\ updated_at r' = now
        /\ retry_count r' = retry_count r /\ error r' = error r)
    /\ (id r <> job_id -> r' = r)
    /\ forall later,
         complete_job later job_id (complete_job now job_id db)
         = complete_job later job_id db.
Proof.
  intros Hi. unfold complete_job at 1. rewrite sql_update_lookup, Hi.
  simpl. eexists. split; [reflexivity|].
  destruct (Z.eqb_spec (id r) job_id) as [He|Hne].
  - split; [intros _; repeat split|]. split; [contradiction|].
    intros later. unfold complete_job, sql_update. rewrite map_map.
    apply map_ext. intros x. destruct (id x =? job_id) eqn:E; simpl;
      rewrite E; reflexivity.
  - split; [contradiction|]. split; [reflexivity|].
    intros later. unfold complete_job, sql_update. rewrite map_map.
    apply map_ext. intros x. destruct (id x =? job_id) eqn:E; simpl;
      rewrite E; reflexivity.
Qed.

Lemma complete_job_marks_only_that_job_witness :
  Samples.queue !! 3%nat = Some (Samples.row 4 5 processing 0 5)
  /\ exists r',
       complete_job 1000 4 Samples.queue !! 3%nat = Some r'
       /\ status r' = completed /\ updated_at r' = 1000.
Proof.
  split; [reflexivity|].
  destruct (complete_job_marks_only_that_job 1000 4 Samples.queue 3 _
              eq_refl) as (r' & Hl & Hs & _).
  exists r'. split; [exact Hl|].
  destruct (Hs eq_refl) as (Hc & Hu & _). now split.
Defined.

Lemma lookup_job_app_fresh job_id db row :
  (forall r, r ∈ db -> id r <> job_id) -> id row = job_id ->
  lookup_job job_id (db ++ [row]) = Some row.
Proof.
  intros Hdb Hrow. unfold lookup_job, sql_select_one.
  induction db as [|r db IH]; simpl.
  - subst job_id. now rewrite Z.eqb_refl.
  - destruct (Z.eqb_spec (id r) job_id) as [He|_].
    + exfalso. apply (Hdb r); [left | exact He].
    + apply IH. intros r' Hr'. apply Hdb. now right.
Qed.

Lemma lookup_job_app_other job_id db row :
  id row <> job_id ->
  lookup_job job_id (db ++ [row]) = lookup_job job_id db.
Proof.
  intros Hrow. unfold lookup_job, sql_select_one.
  induction db as [|r db IH]; simpl.
  - apply Z.eqb_neq in Hrow. now rewrite Hrow.
  - destruct (id r =? job_id); [reflexivity | exact IH].
Qed.

(** When the sequence is at or above every id in use, [add_job] answers
    [True] and the new job is found under the next id: pending, never
    retried, with the payload given, and claimable at once; the lookup of
    every other id is as before and the sequence stays above all ids. *)
Theorem add_job_then_lookup now u jt pl tenant seq db :
  (forall r, r ∈ db -> id r <= seq) ->
  exists row,
    add_job now u jt pl tenant seq db = (true, seq + 1, db ++ [row])
    /\ lookup_job (seq + 1) (db ++ [row]) = Some row
    /\ id row = seq + 1 /\ uid row = u /\ job_type row = jt
    /\ payload row = pl /\ status row = pending /\ retry_count row = 0
    /\ (forall t, eligible t row)
    /\ (forall j, j <> seq + 1 ->
          lookup_job j (db ++ [row]) = lookup_job j db)
    /\ (forall r, r ∈ db ++ [row] -> id r <= seq + 1).
Proof.
  intros Hseq. eexists. split; [reflexivity|]. simpl.
  split.
  { apply lookup_job_app_fresh; [|reflexivity].
    intros r Hr. specialize (Hseq r Hr). lia. }
  repeat split; try reflexivity.
  - now left.
  - intros j Hj. apply lookup_job_app_other. simpl. congruence.
  - intros r Hr. apply elem_of_app in Hr as [Hr|Hr].
    + specialize (Hseq r Hr). lia.
    + apply list_elem_of_singleton in Hr as ->. simpl. lia.
Qed.

Lemma add_job_then_lookup_witness :
  exists row,
    add_job 1000 9 "link" {[ "url" := "https://thyro.care/n/o/x" ]} None 5
            Samples.queue = (true, 6, Samples.queue ++ [row])
    /\ lookup_job 6 (Samples.queue ++ [row]) = Some row.
Proof.
  destruct (add_job_then_lookup 1000 9 "link"
              {[ "url" := "https://thyro.care/n/o/x" ]} None 5
              Samples.queue) as (row & Hadd & Hl & _).
  - intros r Hr. unfold Samples.queue in Hr.
    repeat (apply elem_of_cons in Hr as [->|Hr]; [simpl; lia|]).
    now apply elem_of_nil in Hr.
  - exists row. split; [exact Hadd | exact Hl].
Defined.

(** After [fail_job] at time [now], no claim made up to two minutes
    later returns that job; once the two minutes are over the job is
    eligible again, provided its new retry count does not exceed 3. *)
Theorem failed_job_waits_two_minutes now job_id msg db row :
  lookup_job job_id db = Some row -> 0 <= retry_count row ->
  (forall t d db',
     t <= now + 120 ->
     get_next_job t (fail_job now job_id msg db) = (Some d, db') ->
     d_id d <> job_id)
  /\ (retry_count row + 1 <= 3 ->
      exists row',
        lookup_job job_id (fail_job now job_id msg db) = Some row'
        /\ forall t, now + 120 < t -> eligible t row').
Proof.
  intros Hrow Hnonneg. split.
  - intros t d db' Ht. unfold get_next_job.
    destruct (oldest (List.filter (claimable t)
                (fail_job now job_id msg db))) as [r'|] eqn:Hsel;
      [|discriminate].
    intros [= <- _] Hid. simpl in Hid.
    apply oldest_elem, elem_of_filter_claimable in Hsel as [Hin [_ Hel]].
    unfold fail_job in Hin.
    change (sql_select_one (fun r => id r =? job_id) db)
      with (lookup_job job_id db) in Hin.
    rewrite Hrow in Hin.
    apply elem_of_sql_update in Hin as (r & _ & ->).
    destruct (Z.eqb_spec (id r) job_id) as [_|Hne];
      [|contradiction].
    simpl in Hel. lia.
  - intros Hbudget. eexists.
    split; [exact (lookup_job_fail_job now job_id msg db row Hrow)|].
    intros t Ht. split; simpl.
    + unfold MAX_RETRIES.
      destruct (retry_count row + 1 >? 3) eqn:E; [|reflexivity].
      apply Z.gtb_lt in E. lia.
    + right. lia.
Qed.

Lemma failed_job_waits_two_minutes_witness :
  lookup_job 1 Samples.queue = Some (Samples.row 1 50 pending 0 50)
  /\ exists d db',
       get_next_job 1100 (fail_job 1000 1 "sink down" Samples.queue)
       = (Some d, db')
       /\ d_id d <> 1.
Proof.
  split; [reflexivity|].
  destruct (failed_job_waits_two_minutes 1000 1 "sink down" Samples.queue _
              eq_refl ltac:(simpl; lia)) as [Hwait _].
  eexists _, _. split; [reflexivity|].
  eapply (Hwait 1100); [lia | reflexivity].
Defined.

(** A row swept by [reset_stuck_jobs] at time [now] is pending with its
    clock restarted: it is eligible for a claim at once if it was never
    retried, and otherwise only when more than two minutes have passed
    since the sweep. *)
Theorem swept_job_eligibility now timeout_minutes db i r :
  db !! i = Some r -> stuck now timeout_minutes r = true ->
  exists r',
    reset_stuck_jobs now timeout_minutes db !! i = Some r'
    /\ status r' = pending /\ updated_at r' = now
    /\ error r' = Some "Reset from stuck state"%string
    /\ forall t, eligible t r' <-> retry_count r = 0 \/ now < t - 120.
Proof.
  intros Hi Hstuck. unfold reset_stuck_jobs.
  rewrite sql_update_lookup, Hi. simpl. rewrite Hstuck.
  eexists. split; [reflexivity|]. simpl. repeat split; try tauto.
  intros [_ H]. exact H.
Qed.

Lemma swept_job_eligibility_witness :
  Samples.queue !! 3%nat = Some (Samples.row 4 5 processing 0 5)
  /\ exists r',
       reset_stuck_jobs 1000 10 Samples.queue !! 3%nat = Some r'
       /\ eligible 1000 r'.
Proof.
  split; [reflexivity|].
  destruct (swept_job_eligibility 1000 10 Samples.queue 3 _ eq_refl
              eq_refl) as (r' & Hl & _ & _ & _ & Hel).
  exists r'. split; [exact Hl|]. apply Hel. left. reflexivity.
Defined.

End QueueMore.

(** * Further properties of the worker *)

Module WorkerMore.
Import Pdf QueueDB Worker.

Lemma lookup_map_seq_nth {B} (f : nat -> page -> B) (pages : list page)
    (d : page) a k i p :
  a <= i -> i < a + k -> pages !! i = Some p ->
  map (fun j => f j (nth j pages d)) (seq a k) !! (i - a) = Some (f i p).
Proof.
  intros Ha Hk Hp. rewrite ComposeFacts.lookup_map, lookup_seq_lt by lia.
  simpl. replace (a + (i - a)) with i by lia.
  now rewrite (nth_lookup_Some _ _ _ _ Hp).
Qed.

Lemma worker_brand_page_spec h total first s i p :
  heap s !! (first + i) = Some p ->
  brand_page h total first s i
  = {| heap := <[first + i := RebrandFolderApp.branded h total i p]> (heap s);
       writer := writer s ++ [RebrandFolderApp.branded h total i p] |}.
Proof.
  intros H. unfold brand_page, RebrandFolderApp.branded, with_header.
  destruct h as [o|]; [destruct (i <? total - 1)|].
  - now apply ComposeFacts.merge_then_add.
  - now apply ComposeFacts.add_unmerged.
  - destruct (i <? total - 1); now apply ComposeFacts.add_unmerged.
Qed.

(** The cover pages the worker's writer starts with. *)
Lemma worker_try_branding_pages env fs input_path output_path pages :
  os_path_exists fs COVER_IMAGE = true ->
  PdfReader fs input_path = Some pages ->
  try_branding env fs input_path output_path
  = if can_write env output_path then
      Some (<[output_path :=
                PdfFile
                  (match create_cover_page env fs COVER_IMAGE with
                   | Some cover => [cover]
                   | None => []
                   end
                   ++ map (fun i =>
                             RebrandFolderApp.branded
                               (create_header_overlay env fs LEFT_LOGO
                                                      RIGHT_LOGO)
                               (length pages) i (nth i pages (Content "")))
                          (seq 1 (length pages - 1)))]> fs)
    else None.
Proof.
  intros Hcover Hread. unfold try_branding. rewrite Hcover, Hread. simpl.
  set (h := create_header_overlay env fs LEFT_LOGO RIGHT_LOGO).
  set (s := match create_cover_page env fs COVER_IMAGE with
            | Some cover => add_fresh_page cover _
            | None => _
            end).
  assert (Hs : heap s = pages /\
               writer s = match create_cover_page env fs COVER_IMAGE with
                          | Some cover => [cover]
                          | None => []
                          end).
  { unfold s. destruct (create_cover_page env fs COVER_IMAGE); now split. }
  destruct Hs as [Hheap Hwriter].
  destruct (ComposeFacts.page_loop 0
              (RebrandFolderApp.branded h (length pages))
              (brand_page h (length pages) 0)
              (worker_brand_page_spec h (length pages) 0)
              (length pages - 1) 1 s
              (fun i => nth i pages (Content ""))) as (Hw & _).
  { intros i Hi. simpl. rewrite Hheap.
    apply ComposeFacts.lookup_nth. lia. }
  rewrite Hw, Hwriter. reflexivity.
Qed.

(** With the cover image in place, a readable source and a writable
    target, the worker's [apply_branding] writes the cover followed by the
    source without its first page: the pages before the last one carry
    the header overlay, the last one is left as it is.  The first page is
    dropped whatever the length, so a one-page source leaves nothing but
    the cover. *)
Theorem worker_branding_drops_first_page env fs input_path output_path
    pages :
  os_path_exists fs COVER_IMAGE = true ->
  PdfReader fs input_path = Some pages ->
  can_write env output_path = true ->
  exists out,
    apply_branding env fs input_path output_path
    = Ok (<[output_path := PdfFile out]> fs)
    /\ let cover := match create_cover_page env fs COVER_IMAGE with
                    | Some c => [c]
                    | None => []
                    end in
       let h := create_header_overlay env fs LEFT_LOGO RIGHT_LOGO in
       let n := length pages in
       length out = length cover + (n - 1)
       /\ take (length cover) out = cover
       /\ (forall i p, 1 <= i -> pages !! i = Some p ->
             out !! (length cover + (i - 1))
             = Some (if i <? n - 1 then with_header h p else p))
       /\ (n = 1 -> out = cover).
Proof.
  intros Hcover Hread Hw. eexists. split.
  { unfold apply_branding.
    rewrite (worker_try_branding_pages _ _ _ _ pages Hcover Hread), Hw.
    reflexivity. }
  simpl. split; [|split; [|split]].
  - now rewrite length_app, length_map, length_seq.
  - apply take_app_length.
  - intros i p Hi Hp. pose proof (lookup_lt_Some _ _ _ Hp) as Hlt.
    rewrite lookup_app_r by lia.
    replace (length
               match create_cover_page env fs COVER_IMAGE with
               | Some c => [c]
               | None => []
               end + (i - 1)
             - length
                 match create_cover_page env fs COVER_IMAGE with
                 | Some c => [c]
                 | None => []
                 end) with (i - 1) by lia.
    now rewrite (lookup_map_seq_nth _ pages _ 1 _ i p) by (lia || exact Hp).
  - intros Hn. rewrite Hn. simpl. apply app_nil_r.
Qed.

Lemma worker_branding_drops_first_page_witness :
  PdfReader Samples.disk "other/d.pdf" = Some [Content "d0"]
  /\ apply_branding Samples.env Samples.disk "other/d.pdf" "out/d.pdf"
     = Ok (<["out/d.pdf" := PdfFile [Samples.cover_page]]> Samples.disk).
Proof.
  split; [reflexivity|].
  destruct (worker_branding_drops_first_page Samples.env Samples.disk
              "other/d.pdf" "out/d.pdf" [Content "d0"] eq_refl eq_refl
              eq_refl) as (out & Hrun & _ & _ & _ & Hone).
  rewrite Hrun, (Hone eq_refl). reflexivity.
Defined.

(** What a call of the worker's [apply_branding] that returns has done
    to the disk. *)
Lemma apply_branding_returns env fs input_path output_path fs' :
  apply_branding env fs input_path output_path = Ok fs' ->
  is_Some (fs' !! output_path)
  /\ (forall path, path <> output_path -> fs' !! path = fs !! path)
  /\ (os_path_exists fs COVER_IMAGE = false
      \/ PdfReader fs input_path = None ->
      fs' !! output_path = fs !! input_path).
Proof.
  unfold apply_branding, try_branding, shutil_copy.
  destruct (os_path_exists fs COVER_IMAGE) eqn:Hcover; simpl.
  - destruct (PdfReader fs input_path) as [pages|] eqn:Hread.
    + destruct (open_reader pages new_writer) as [s first].
      destruct (can_write env output_path) eqn:Hw.
      * intros [= <-]. rewrite lookup_insert_eq.
        split; [eauto|]. split.
        -- intros path Hp. now rewrite lookup_insert_ne.
        -- intros [?|?]; discriminate.
      * destruct (fs !! input_path); [|discriminate].
        destruct (bool_decide (input_path = output_path)); discriminate.
    + destruct (fs !! input_path) as [f|]; [|discriminate].
      destruct (bool_decide (input_path = output_path)); [discriminate|].
      destruct (can_write env output_path); [|discriminate].
      intros [= <-]. rewrite lookup_insert_eq.
      split; [eauto|]. split; [|reflexivity].
      intros path Hp. now rewrite lookup_insert_ne.
  - destruct (fs !! input_path) as [f|]; [|discriminate].
    destruct (bool_decide (input_path = output_path)); [discriminate|].
    destruct (can_write env output_path); [|discriminate].
    intros [= <-]. rewrite lookup_insert_eq.
    split; [eauto|]. split; [|reflexivity].
    intros path Hp. now rewrite lookup_insert_ne.
Qed.




(** A [file] job whose path is not on disk is failed with the message
    [Source file missing: <path>], and a [file] job without a path is
    failed as well.  A job of any other type has no source path: the
    extraction runs on [None], and the job is failed with the error of
    the extractor that raised or, when both went through, with the
    error of the copy that has no source.  In each case no file of the
    disk is written or removed and no sink is asked. *)
Theorem unresolved_source_fails_job env job fs :
  (forall path,
     d_job_type job = "file" -> d_payload job !! "path" = Some path ->
     fs !! path = None ->
     process_job_call env job fs
     = (FailJob (d_id job) ("Source file missing: " +:+ path), fs))
  /\ (d_job_type job = "file" -> d_payload job !! "path" = None ->
      process_job_call env job fs = (FailJob (d_id job) "'path'", fs))
  /\ (d_job_type job <> "file" -> d_job_type job <> "link" ->
      process_job_call env job fs
      = (FailJob (d_id job)
           match extract_patient_name_none env
                   (default "report.pdf" (d_payload job !! "filename")) with
           | Raise msg => msg
           | Ok _ =>
               match extract_test_name env (pdf_text_none env) with
               | Raise msg => msg
               | Ok _ => none_path_error env
               end
           end, fs)).
Proof.
  unfold process_job_call, prepare, resolve_source, bind.
  split; [|split].
  - intros path Ht Hp Hmissing.
    rewrite bool_decide_true by exact Ht. rewrite Hp.
    unfold get_files, raise, ret, os_path_exists.
    rewrite bool_decide_false; [reflexivity|].
    rewrite Hmissing. intros [? ?]. discriminate.
  - intros Ht Hp. rewrite bool_decide_true by exact Ht. rewrite Hp.
    reflexivity.
  - intros Hf Hl. rewrite !bool_decide_false by assumption.
    unfold ret, lift, raise.
    destruct (extract_patient_name_none env _) as [named|m1];
      [|reflexivity].
    destruct (extract_test_name env (pdf_text_none env)) as [t_name|m2];
      reflexivity.
Qed.

Lemma unresolved_source_fails_job_witness :
  process_job_call Samples.env Samples.file_job (delete "in/a.pdf" Samples.disk)
  = (FailJob 1 "Source file missing: in/a.pdf",
     delete "in/a.pdf" Samples.disk)
  /\ process_job_call Samples.env Samples.scan_job Samples.disk
     = (FailJob 3 "expected str, bytes or os.PathLike object", Samples.disk).
Proof.
  destruct (unresolved_source_fails_job Samples.env Samples.file_job
              (delete "in/a.pdf" Samples.disk)) as [Hmissing _].
  split; [exact (Hmissing "in/a.pdf" eq_refl eq_refl eq_refl)|].
  destruct (unresolved_source_fails_job Samples.env Samples.scan_job
              Samples.disk) as (_ & _ & Hother).
  apply Hother; discriminate.
Defined.

(** A [link] job whose fetch script ends with a non-zero code, or leaves
    the temporary file empty, is failed with the fetch message holding
    the URL and the captured output.  The disk is what the script left:
    the temporary file is not removed. *)
Theorem failed_fetch_fails_job env job fs url returncode stdout stderr fs' :
  d_job_type job = "link" -> d_payload job !! "url" = Some url ->
  fetch_url env url (mkstemp env fs)
            (<[mkstemp env fs := DataFile ""]> fs)
  = (returncode, stdout, stderr, fs') ->
  returncode <> 0%Z \/ fs' !! mkstemp env fs = Some (DataFile "") ->
  process_job_call env job fs
  = (FailJob (d_id job) (fetch_failure url stdout stderr), fs').
Proof.
  intros Ht Hurl Hfetch Hbad.
  unfold process_job_call, prepare, resolve_source, bind.
  assert (Hnf : d_job_type job <> "file") by (rewrite Ht; discriminate).
  rewrite bool_decide_false by exact Hnf.
  rewrite bool_decide_true by exact Ht. rewrite Hurl.
  unfold get_files. rewrite Hfetch. unfold put_files, raise, ret.
  destruct (Z.eqb_spec returncode 0) as [->|Hrc]; simpl; [|reflexivity].
  destruct Hbad as [Hbad|Hempty]; [contradiction|].
  rewrite Hempty. simpl. reflexivity.
Qed.

Lemma failed_fetch_fails_job_witness :
  process_job_call Samples.env_fetch_down Samples.link_job Samples.disk
  = (FailJob (d_id Samples.link_job)
             (fetch_failure "https://thyro.care/n/o/abc" "" "timeout"),
     <[mkstemp Samples.env_fetch_down Samples.disk := DataFile ""]>
       Samples.disk).
Proof.
  apply (failed_fetch_fails_job Samples.env_fetch_down Samples.link_job
           Samples.disk "https://thyro.care/n/o/abc" 1%Z "" "timeout").
  - reflexivity.
  - vm_compute. reflexivity.
  - reflexivity.
  - left. discriminate.
Defined.

Lemma resolve_source_types env job fs temp_path fs' :
  resolve_source env job fs = (Ok (Some temp_path), fs') ->
  (d_job_type job = "file" \/ d_job_type job = "link")
  /\ is_Some (fs' !! temp_path).
Proof.
  unfold resolve_source.
  destruct (decide (d_job_type job = "file")) as [Hf|Hf].
  - rewrite bool_decide_true by exact Hf.
    destruct (d_payload job !! "path") as [path|]; [|discriminate].
    unfold bind, get_files, ret, raise.
    destruct (os_path_exists fs path) eqn:Hex; [|discriminate].
    intros [= <- <-]. split; [now left|].
    now apply bool_decide_eq_true in Hex.
  - rewrite bool_decide_false by exact Hf.
    destruct (decide (d_job_type job = "link")) as [Hl|Hl].
    + rewrite bool_decide_true by exact Hl.
      destruct (d_payload job !! "url") as [url|]; [|discriminate].
      unfold bind, get_files, put_files, ret, raise.
      destruct (fetch_url env url _ _) as [[[rc out] err] fs1].
      destruct (negb (rc =? 0)%Z); [discriminate|].
      destruct (fs1 !! mkstemp env fs) as [f|] eqn:Hf1; [|discriminate].
      destruct (is_empty_file f); [discriminate|].
      intros [= <- <-]. split; [now right | eauto].
    + rewrite bool_decide_false by exact Hl. discriminate.
Qed.

(** A job that got as far as the sinks is of type [file] or [link], and
    its source is still on disk beside the branded file. *)
Lemma prepare_types env job fs temp_path p_name final_path fs' :
  prepare env job fs = (Ok (temp_path, p_name, final_path), fs') ->
  (d_job_type job = "file" \/ d_job_type job = "link")
  /\ is_Some (fs' !! temp_path) /\ is_Some (fs' !! final_path).
Proof.
  unfold prepare, bind at 1.
  destruct (resolve_source env job fs) as [[[temp|]|msg] fs1] eqn:Hres;
    [| |discriminate].
  - apply resolve_source_types in Hres as [Htype Htemp].
    unfold bind, lift, get_files, put_files, ret.
    destruct (extract_patient_name env temp _) as [[patient source]|m1];
      [|discriminate].
    destruct (extract_test_name env (pdf_text env temp)) as [t_name|m2];
      [|discriminate].
    simpl.
    destruct (apply_branding env fs1 temp _) as [fs2|m3] eqn:Hrun;
      [|discriminate].
    intros [= <- <- <- <-].
    apply apply_branding_returns in Hrun as (Hout & Hframe & _).
    split; [exact Htype|]. split; [|exact Hout].
    destruct (decide (temp = os_path_join env (todays_download_dir env)
                               (final_fname env patient t_name)))
      as [Heq|Hne]; [now rewrite Heq at 1|].
    now rewrite Hframe.
  - unfold bind, lift, raise.
    destruct (extract_patient_name_none env _) as [named|m1];
      [|discriminate].
    destruct (extract_test_name env (pdf_text_none env)) as [t_name|m2];
      discriminate.
Qed.

(** When a sink accepted the file, the worker removes the branded file
    and the source it worked from, the producer's file of a [file] job as
    well as the download of a [link] job, and no other file of the disk
    changes after the branding.  For a [file] job it then hands the
    directory of the source to [os.rmdir], so that the producer's job
    directory goes once it is empty; for a [link] job no directory is
    touched.  When both sinks refused, nothing is removed. *)
Theorem cleanup_after_delivery env job fs temp_path p_name final_path fs1 :
  prepare env job fs = (Ok (temp_path, p_name, final_path), fs1) ->
  let fs2 := (process_job_call env job fs).2 in
  let removal := cleanup env job temp_path final_path fs1 in
  (upload_to_drive env fs1 final_path
   || upload_to_api env fs1 final_path p_name = true ->
   fs2 = removal.1
   /\ fs2 !! final_path = None /\ fs2 !! temp_path = None
   /\ (forall path, path <> final_path -> path <> temp_path ->
                    fs2 !! path = fs1 !! path)
   /\ (d_job_type job = "file" -> temp_path <> final_path ->
       removal.2 = [os_path_dirname env temp_path])
   /\ (d_job_type job = "link" -> removal.2 = []))
  /\ (upload_to_drive env fs1 final_path
      || upload_to_api env fs1 final_path p_name = false ->
      fs2 = fs1).
Proof.
  intros Hprep fs2 removal. unfold fs2.
  rewrite (WorkerFacts.process_job_call_prepared _ _ _ _ _ _ _ Hprep).
  pose proof (prepare_types _ _ _ _ _ _ _ Hprep) as (Htype & Htemp & Hfinal).
  destruct (upload_to_drive env fs1 final_path
            || upload_to_api env fs1 final_path p_name); simpl;
    [|split; [discriminate | reflexivity]].
  split; [intros _|discriminate]. fold removal.
  split; [reflexivity|].
  assert (Hfin : os_path_exists fs1 final_path = true)
    by now apply bool_decide_eq_true.
  assert (Hafter : os_path_exists (delete final_path fs1) temp_path
                   = bool_decide (temp_path <> final_path)).
  { unfold os_path_exists.
    destruct (decide (temp_path = final_path)) as [->|Hne].
    - rewrite lookup_delete_eq.
      rewrite (bool_decide_false (final_path <> final_path))
        by (intros H; now apply H).
      apply bool_decide_eq_false. intros [? ?]. discriminate.
    - rewrite lookup_delete_ne by congruence.
      rewrite (bool_decide_true (temp_path <> final_path)) by exact Hne.
      now apply bool_decide_eq_true. }
  assert (Hgone : forall path : string,
            (if bool_decide (temp_path <> final_path)
             then delete temp_path (delete final_path fs1)
             else delete final_path fs1) !! path
            = if bool_decide (path = final_path \/ path = temp_path)
              then None else fs1 !! path).
  { intros path.
    destruct (decide (temp_path = final_path)) as [->|Hne].
    - rewrite (bool_decide_false (final_path <> final_path))
        by (intros H; now apply H).
      destruct (decide (path = final_path)) as [->|Hp].
      + rewrite lookup_delete_eq, bool_decide_true by now left.
        reflexivity.
      + rewrite lookup_delete_ne by congruence.
        rewrite bool_decide_false by (intros [?|?]; contradiction).
        reflexivity.
    - rewrite (bool_decide_true (temp_path <> final_path)) by exact Hne.
      destruct (decide (path = temp_path)) as [->|Hpt].
      + rewrite lookup_delete_eq, bool_decide_true by now right.
        reflexivity.
      + rewrite lookup_delete_ne by congruence.
        destruct (decide (path = final_path)) as [->|Hpf].
        * rewrite lookup_delete_eq, bool_decide_true by now left.
          reflexivity.
        * rewrite lookup_delete_ne by congruence.
          rewrite bool_decide_false by (intros [?|?]; contradiction).
          reflexivity. }
  assert (Hfiles : forall path : string,
            removal.1 !! path
            = if bool_decide (path = final_path \/ path = temp_path)
              then None else fs1 !! path).
  { intros path. rewrite <- Hgone. unfold removal, cleanup.
    rewrite Hfin.
    destruct Htype as [Ht|Ht]; rewrite Ht; simpl; rewrite ?Hafter;
      destruct (bool_decide (temp_path <> final_path)); reflexivity. }
  split; [rewrite Hfiles; now rewrite bool_decide_true by now left|].
  split; [rewrite Hfiles; now rewrite bool_decide_true by now right|].
  split.
  { intros path H1 H2. rewrite Hfiles.
    now rewrite bool_decide_false by (intros [?|?]; contradiction). }
  split.
  - intros Ht Hne. unfold removal, cleanup. rewrite Hfin, Ht. simpl.
    rewrite Hafter, bool_decide_true by exact Hne. reflexivity.
  - intros Ht. unfold removal, cleanup. rewrite Hfin, Ht. simpl.
    destruct (os_path_exists (delete final_path fs1) temp_path);
      reflexivity.
Qed.

Lemma cleanup_after_delivery_witness :
  (process_job_call Samples.env Samples.file_job Samples.disk).2
    !! "in/a.pdf" = None
  /\ (process_job_call Samples.env Samples.file_job Samples.disk).2
       !! "/srv/download_pdf/2026-01-05/Asha Rao_CBC.pdf" = None
  /\ (cleanup Samples.env Samples.file_job "in/a.pdf"
        "/srv/download_pdf/2026-01-05/Asha Rao_CBC.pdf"
        (prepare Samples.env Samples.file_job Samples.disk).2).2
     = ["in"].
Proof.
  destruct (cleanup_after_delivery Samples.env Samples.file_job Samples.disk
              "in/a.pdf" "Asha Rao"
              "/srv/download_pdf/2026-01-05/Asha Rao_CBC.pdf"
              (prepare Samples.env Samples.file_job Samples.disk).2)
    as [Hdone _].
  - vm_compute. reflexivity.
  - destruct Hdone as (_ & Hfinal & Htemp & _ & Hdir & _);
      [vm_compute; reflexivity|].
    split; [exact Htemp|]. split; [exact Hfinal|].
    rewrite Hdir by (reflexivity || discriminate). reflexivity.
Defined.

Lemma process_job_call_id env job fs :
  (process_job_call env job fs).1 = CompleteJob (d_id job)
  \/ exists msg, (process_job_call env job fs).1 = FailJob (d_id job) msg.
Proof.
  unfold process_job_call.
  destruct (prepare env job fs) as [[[[temp p] final]|msg] fs'].
  - destruct (upload_to_drive env fs' final || upload_to_api env fs' final p);
      simpl; eauto.
  - simpl. eauto.
Qed.

(** One turn of the worker loop and the job it claimed.  When the store
    answers the final call, the turn leaves no row with the claimed id in
    [processing]: each is [completed], [pending] or [failed].  When the
    store does not answer it, the table is as the claim left it: the rows
    with the claimed id stay in [processing], stamped with the time of
    the claim, until a later sweep resets them.  Without a claimed job,
    be it that no job is eligible or that the store did not answer the
    claim, the turn only sweeps and leaves the disk alone. *)
Theorem main_iteration_releases_job env store t_sweep t_claim t_done w :
  let swept :=
    if sweep_ok store
    then reset_stuck_jobs t_sweep DEFAULT_TIMEOUT_MINUTES (jobs w)
    else jobs w in
  let after := main_iteration env store t_sweep t_claim t_done w in
  match (if claim_ok store then (get_next_job t_claim swept).1 else None)
  with
  | Some job =>
      (exists r, r ∈ jobs w /\ id r = d_id job)
      /\ (final_ok store = true ->
          forall r, r ∈ jobs after -> id r = d_id job ->
                    status r <> processing)
      /\ (final_ok store = false ->
          jobs after = (get_next_job t_claim swept).2
          /\ forall r, r ∈ jobs after -> id r = d_id job ->
                       status r = processing /\ updated_at r = t_claim)
  | None => after = {| disk := disk w; jobs := swept |}
  end.
Proof.
  intros swept after. unfold after, main_iteration. fold swept.
  destruct (claim_ok store); [|reflexivity].
  unfold get_next_job.
  destruct (oldest (List.filter (claimable t_claim) swept)) as [row|] eqn:Hsel;
    simpl; [|reflexivity].
  split; [|split].
  { apply QueueFacts.oldest_elem, QueueFacts.elem_of_filter_claimable
      in Hsel as [Hin _].
    unfold swept in Hin. destruct (sweep_ok store).
    - apply QueueFacts.elem_of_sql_update in Hin as (r & Hr & ->).
      exists r. split; [exact Hr|]. destruct (stuck _ _ r); reflexivity.
    - exists row. split; [exact Hin | reflexivity]. }
  - intros ->. intros r. unfold process_job. simpl.
    destruct (process_job_call env (dict_of_row row) (disk w))
      as [call fs'] eqn:Hcall.
    pose proof (process_job_call_id env (dict_of_row row) (disk w)) as Hid.
    rewrite Hcall in Hid. simpl in Hid. simpl.
    destruct Hid as [->|[msg ->]]; simpl.
    + unfold complete_job. intros Hr Hrid.
      apply QueueFacts.elem_of_sql_update in Hr as (r0 & _ & ->).
      destruct (Z.eqb_spec (id r0) (id row)) as [_|Hne]; [discriminate|].
      contradiction.
    + unfold fail_job.
      destruct (sql_select_one _ _) as [found|] eqn:Hfound.
      * intros Hr Hrid.
        apply QueueFacts.elem_of_sql_update in Hr as (r0 & _ & ->).
        destruct (Z.eqb_spec (id r0) (id row)) as [_|Hne]; [|contradiction].
        simpl.
        destruct (retry_count found + 1 >? MAX_RETRIES)%Z; discriminate.
      * intros Hr Hrid. exfalso.
        apply list_elem_of_In in Hr.
        pose proof (find_none _ _ Hfound r Hr) as Hnone. simpl in Hnone.
        apply Z.eqb_neq in Hnone. contradiction.
  - intros ->. simpl. split; [reflexivity|].
    intros r Hr Hrid.
    apply QueueFacts.elem_of_sql_update in Hr as (r0 & _ & ->).
    destruct (Z.eqb_spec (id r0) (id row)) as [_|Hne]; [|contradiction].
    split; reflexivity.
Qed.

Lemma main_iteration_releases_job_witness :
  (get_next_job 1000
     (reset_stuck_jobs 1000 DEFAULT_TIMEOUT_MINUTES Samples.queue)).1
  = Some (dict_of_row (mark_reset 1000 (Samples.row 4 5 processing 0 5)))
  /\ (forall r,
        r ∈ jobs (main_iteration Samples.env (StoreAnswers true true true)
                    1000 1000 1001 Samples.world) ->
        id r = 4%Z -> status r <> processing)
  /\ (forall r,
        r ∈ jobs (main_iteration Samples.env (StoreAnswers true true false)
                    1000 1000 1001 Samples.world) ->
        id r = 4%Z -> status r = processing).
Proof.
  split; [vm_compute; reflexivity|]. split.
  - pose proof (main_iteration_releases_job Samples.env
                  (StoreAnswers true true true) 1000 1000 1001
                  Samples.world) as H.
    cbv zeta in H. cbn [claim_ok sweep_ok final_ok] in H.
    change (jobs Samples.world) with Samples.queue in H.
    replace ((get_next_job 1000
               (reset_stuck_jobs 1000 DEFAULT_TIMEOUT_MINUTES
                  Samples.queue)).1)
      with (Some (dict_of_row
                    (mark_reset 1000 (Samples.row 4 5 processing 0 5))))
      in H by (vm_compute; reflexivity).
    destruct H as (_ & Hok & _). exact (Hok eq_refl).
  - pose proof (main_iteration_releases_job Samples.env
                  (StoreAnswers true true false) 1000 1000 1001
                  Samples.world) as H.
    cbv zeta in H. cbn [claim_ok sweep_ok final_ok] in H.
    change (jobs Samples.world) with Samples.queue in H.
    replace ((get_next_job 1000
               (reset_stuck_jobs 1000 DEFAULT_TIMEOUT_MINUTES
                  Samples.queue)).1)
      with (Some (dict_of_row
                    (mark_reset 1000 (Samples.row 4 5 processing 0 5))))
      in H by (vm_compute; reflexivity).
    destruct H as (_ & _ & Hlost).
    intros r Hr Hid. now apply (Hlost eq_refl).
Defined.

End WorkerMore.

(** * Further properties of the composition engine *)

Module ComposeMore.
Import Pdf RebrandFolderApp ComposeFacts.

Lemma strip_illegal_chars s :
  String.list_ascii_of_string (strip_illegal s)
  = List.filter (fun c => negb (illegal_char c)) (String.list_ascii_of_string s).
Proof.
  induction s as [|c s IH]; simpl; [reflexivity|].
  destruct (illegal_char c); simpl; now rewrite IH.
Qed.

Lemma strip_illegal_legal s :
  (forall c, In c (String.list_ascii_of_string s) -> illegal_char c = false) ->
  strip_illegal s = s.
Proof.
  induction s as [|c s IH]; simpl; intros H; [reflexivity|].
  rewrite (H c) by now left. f_equal. apply IH. intros c' Hc'.
  apply H. now right.
Qed.

Lemma str_or_nonempty x default : default <> "" -> str_or x default <> "".
Proof. intros H. unfold str_or. case_bool_decide; assumption. Qed.

Lemma no_chars_empty s :
  (forall c, ~ In c (String.list_ascii_of_string s)) -> s = "".
Proof.
  destruct s as [|c s]; [reflexivity|]. intros H. exfalso.
  apply (H c). now left.
Qed.

Lemma lstrip_chars s c :
  In c (String.list_ascii_of_string (Samples.lstrip s)) ->
  In c (String.list_ascii_of_string s).
Proof.
  induction s as [|a s IH]; simpl; [tauto|].
  destruct (Samples.is_space a); [|tauto]. intros H. right. now apply IH.
Qed.

Lemma rstrip_chars s c :
  In c (String.list_ascii_of_string (Samples.rstrip s)) ->
  In c (String.list_ascii_of_string s).
Proof.
  induction s as [|a s IH]; simpl; [tauto|].
  destruct (Samples.rstrip s) as [|b kept].
  - destruct (Samples.is_space a); simpl; tauto.
  - simpl. simpl in IH. tauto.
Qed.

(** The sanitisers of the three programs, the pattern substitution
    followed by [strip] and a placeholder, give a name that is never
    empty and holds none of the nine characters of the pattern, [strip]
    only taking characters away.  A name that is empty once the
    characters and the surrounding blanks are gone becomes the
    placeholder; a name without them and without surrounding blanks is
    kept as it is.  The sanitiser of the composition engine, with its
    own test for an empty name, is the same function as the one of the
    worker and the producer. *)
Theorem sanitised_names_are_legal env name default :
  (forall s c, In c (String.list_ascii_of_string (str_strip env s)) ->
               In c (String.list_ascii_of_string s)) ->
  In default ["Unknown"; "REPORT"; "UnknownPatient"] ->
  let safe := Worker.safe_name env name default in
  str_or (clean_filename env name) default = safe
  /\ safe <> ""
  /\ (forall c, In c (String.list_ascii_of_string safe) ->
        ~ In (Ascii.nat_of_ascii c) illegal_chars)
  /\ (str_strip env (strip_illegal name) = "" -> safe = default)
  /\ (str_strip env (strip_illegal name) <> "" ->
      safe = str_strip env (strip_illegal name))
  /\ (name <> "" ->
      (forall c, In c (String.list_ascii_of_string name) ->
         ~ In (Ascii.nat_of_ascii c) illegal_chars) ->
      str_strip env name = name -> safe = name).
Proof.
  intros Hstrip Hdefault safe. unfold safe, Worker.safe_name.
  assert (Hlegal : forall c,
            In c (String.list_ascii_of_string
                    (str_strip env (strip_illegal name))) ->
            illegal_char c = false).
  { intros c Hc. apply Hstrip in Hc.
    rewrite strip_illegal_chars, filter_In in Hc.
    destruct Hc as [_ Hc]. now apply negb_true_iff in Hc. }
  split; [|split; [|split; [|split; [|split]]]].
  - unfold clean_filename. case_bool_decide as Hname; [|reflexivity].
    subst name. simpl.
    rewrite (no_chars_empty (str_strip env ""));
      [reflexivity|]. intros c Hc. now apply Hstrip in Hc.
  - apply str_or_nonempty.
    destruct Hdefault as [<-|[<-|[<-|[]]]]; discriminate.
  - intros c. unfold str_or. case_bool_decide as Hempty.
    + intros Hc Hin.
      assert (Hill : illegal_char c = true)
        by (apply bool_decide_eq_true; now apply list_elem_of_In).
      destruct Hdefault as [<-|[<-|[<-|[]]]]; simpl in Hc;
        repeat (destruct Hc as [<-|Hc]; [discriminate Hill|]);
        contradiction.
    + intros Hc Hin. specialize (Hlegal c Hc).
      apply bool_decide_eq_false in Hlegal. apply Hlegal.
      now apply list_elem_of_In.
  - intros H. unfold str_or. now rewrite bool_decide_true by exact H.
  - intros H. unfold str_or. now rewrite bool_decide_false by exact H.
  - intros Hname Hno Hkept.
    rewrite (strip_illegal_legal name).
    + rewrite Hkept. unfold str_or.
      now rewrite bool_decide_false by exact Hname.
    + intros c Hc. apply bool_decide_eq_false.
      rewrite list_elem_of_In. now apply Hno.
Qed.

Lemma sanitised_names_are_legal_witness :
  Worker.safe_name Samples.env "Asha: Rao?" "Unknown" = "Asha Rao"
  /\ Worker.safe_name Samples.env " /|\ " "Unknown" = "Unknown".
Proof.
  assert (Hstrip : forall s c,
            In c (String.list_ascii_of_string (str_strip Samples.env s)) ->
            In c (String.list_ascii_of_string s)).
  { intros s c Hc. simpl in Hc. now apply lstrip_chars, rstrip_chars. }
  split.
  - destruct (sanitised_names_are_legal Samples.env "Asha: Rao?" "Unknown"
                Hstrip ltac:(now left)) as (_ & _ & _ & _ & Hkeep & _).
    rewrite Hkeep by (vm_compute; discriminate). reflexivity.
  - destruct (sanitised_names_are_legal Samples.env " /|\ " "Unknown"
                Hstrip ltac:(now left)) as (_ & _ & _ & Hempty & _).
    apply Hempty. reflexivity.
Defined.

(** [extract_info_from_pdf] never answers with an empty patient or test
    name: an empty or fully illegal name becomes [UnknownPatient] or
    [REPORT], and when any extractor raises the answer is the placeholder
    triple with an empty age. *)
Theorem extract_info_from_pdf_never_empty env pdf_path :
  (extract_info_from_pdf env pdf_path).1.1 <> ""
  /\ (extract_info_from_pdf env pdf_path).1.2 <> ""
  /\ ((exists msg,
         extract_patient_name env pdf_path (os_path_basename env pdf_path)
         = Raise msg
         \/ extract_test_name env (pdf_text env pdf_path) = Raise msg
         \/ extract_age env (pdf_text env pdf_path) = Raise msg) ->
      extract_info_from_pdf env pdf_path = ("UnknownPatient", "REPORT", "")).
Proof.
  unfold extract_info_from_pdf.
  destruct (extract_patient_name env pdf_path (os_path_basename env pdf_path))
    as [[name source]|m1]; [|repeat split; discriminate].
  destruct (extract_test_name env (pdf_text env pdf_path)) as [test|m2];
    [|repeat split; discriminate].
  destruct (extract_age env (pdf_text env pdf_path)) as [age|m3];
    [|repeat split; discriminate].
  simpl. split; [apply str_or_nonempty; discriminate|].
  split; [apply str_or_nonempty; discriminate|].
  intros [msg [H|[H|H]]]; discriminate.
Qed.

(** [apply_branding_to_pdf] answers [True] exactly when the source is a
    readable document with at least one page and the output path can be
    written.  When it answers [False] the disk is as before, and in every
    case no path other than the output path changes. *)
Theorem apply_branding_to_pdf_outcome env fs input_path output_dir
    header_style add_cover rename remove_first_page :
  let output_path :=
    os_path_join env output_dir
                 (single_output_filename env rename input_path) in
  let result :=
    apply_branding_to_pdf env fs input_path output_dir header_style
                          add_cover rename remove_first_page in
  (result.1 = true <->
   (exists pages, PdfReader fs input_path = Some pages /\ pages <> [])
   /\ can_write env output_path = true)
  /\ (result.1 = false -> result.2 = fs)
  /\ (forall path, path <> output_path -> result.2 !! path = fs !! path).
Proof.
  intros output_path result. unfold result.
  destruct (PdfReader fs input_path) as [pages|] eqn:Hread.
  - destruct pages as [|p pages].
    + unfold apply_branding_to_pdf. rewrite Hread. simpl.
      split; [|split; [reflexivity|reflexivity]].
      split; [discriminate|]. intros [(pages & [= <-] & Hne) _].
      contradiction.
    + rewrite (apply_branding_to_pdf_closed _ _ _ _ _ _ _ _ (p :: pages))
        by (assumption || discriminate).
      fold output_path. simpl.
      destruct (can_write env output_path); simpl.
      * split; [|split; [discriminate|]].
        -- split; [|reflexivity]. intros _. split; [|reflexivity].
           exists (p :: pages). split; [reflexivity | discriminate].
        -- intros path Hp. now rewrite lookup_insert_ne.
      * split; [|split; reflexivity].
        split; [discriminate|]. intros [_ ?]. discriminate.
  - rewrite apply_branding_to_pdf_unreadable by exact Hread. simpl.
    split; [|split; reflexivity].
    split; [discriminate|]. intros [(pages & ? & _) _]. discriminate.
Qed.

Lemma map_seq_nth_drop (pages : list page) d a :
  map (fun i => nth i pages d) (seq a (length pages - a)) = drop a pages.
Proof.
  apply list_eq. intros i. rewrite lookup_map, lookup_drop.
  destruct (decide (i < length pages - a)) as [Hlt|Hge].
  - rewrite lookup_seq_lt by exact Hlt. simpl.
    symmetry. apply lookup_nth. lia.
  - rewrite lookup_seq_ge by lia. simpl. symmetry.
    apply lookup_ge_None. lia.
Qed.

(** Without a header overlay, which is the case for every style other
    than [branded] and [white], the pages of the window are written as
    they are: the output is the cover followed by the source from the
    start index on.  With the cover and the first-page removal off as
    well, the output document has exactly the pages of the source. *)
Theorem no_header_passes_pages_through env fs input_path output_dir
    header_style add_cover rename remove_first_page pages :
  PdfReader fs input_path = Some pages -> pages <> [] ->
  can_write env (os_path_join env output_dir
                   (single_output_filename env rename input_path)) = true ->
  (header_style <> "branded" -> header_style <> "white" ->
   header_overlay_for env fs header_style = None)
  /\ (header_overlay_for env fs header_style = None ->
      apply_branding_to_pdf env fs input_path output_dir header_style
                            add_cover rename remove_first_page
      = (true,
         <[os_path_join env output_dir
             (single_output_filename env rename input_path)
           := PdfFile (cover_pages env fs add_cover
                       ++ drop (start_page remove_first_page (length pages))
                               pages)]> fs))
  /\ (header_overlay_for env fs header_style = None ->
      apply_branding_to_pdf env fs input_path output_dir header_style
                            false rename false
      = (true,
         <[os_path_join env output_dir
             (single_output_filename env rename input_path)
           := PdfFile pages]> fs)).
Proof.
  intros Hread Hne Hw.
  assert (Hpages : forall cov rfp,
    header_overlay_for env fs header_style = None ->
    branded_pages env fs header_style cov rfp pages
    = cover_pages env fs cov ++ drop (start_page rfp (length pages)) pages).
  { intros cov rfp Hnone. unfold branded_pages, range. rewrite Hnone.
    f_equal. rewrite <- (map_seq_nth_drop pages (Content "")).
    apply map_ext. intros i. unfold branded, with_header.
    now destruct (i <? length pages - 1). }
  split; [|split].
  - intros Hb Hwh. unfold header_overlay_for.
    now rewrite !bool_decide_false by assumption.
  - intros Hnone.
    rewrite (apply_branding_to_pdf_closed _ _ _ _ _ _ _ _ pages Hread Hne).
    simpl. now rewrite Hw, Hpages.
  - intros Hnone.
    rewrite (apply_branding_to_pdf_closed _ _ _ _ _ _ _ _ pages Hread Hne).
    simpl. rewrite Hw, Hpages by exact Hnone. reflexivity.
Qed.

Lemma no_header_passes_pages_through_witness :
  apply_branding_to_pdf Samples.env Samples.disk "in/a.pdf" "out" "none"
                        false false false
  = (true, <["out/a.pdf" := PdfFile Samples.doc_a]> Samples.disk).
Proof.
  destruct (no_header_passes_pages_through Samples.env Samples.disk
              "in/a.pdf" "out" "none" false false false Samples.doc_a
              eq_refl ltac:(discriminate) eq_refl) as (_ & _ & Hsame).
  exact (Hsame eq_refl).
Defined.


(** *** Grouping by patient *)

Lemma group_append_keys key entry groups :
  NoDup (map fst groups) -> NoDup (map fst (group_append key entry groups)).
Proof.
  assert (Hin : forall k gs,
            k ∈ map fst (group_append key entry gs) ->
            k = key \/ k ∈ map fst gs).
  { intros k gs. induction gs as [|[k0 g0] gs IH]; simpl.
    - intros H. apply list_elem_of_singleton in H. now left.
    - destruct (decide (k0 = key)); simpl; intros H.
      + now right.
      + apply elem_of_cons in H as [->|H]; [right; left|].
        destruct (IH H) as [?|?]; [now left | right; now right]. }
  induction groups as [|[k g] groups IH]; simpl; intros Hnd.
  - apply NoDup_singleton.
  - apply NoDup_cons in Hnd as [Hk Hnd].
    destruct (decide (k = key)) as [->|Hne]; simpl.
    + apply NoDup_cons. now split.
    + apply NoDup_cons. split; [|now apply IH].
      intros H. apply Hin in H as [?|?]; [congruence | contradiction].
Qed.

Lemma group_append_entries key entry groups :
  concat (map snd (group_append key entry groups))
  ≡ₚ concat (map snd groups) ++ [entry].
Proof.
  induction groups as [|[k g] groups IH]; simpl; [reflexivity|].
  destruct (decide (k = key)); simpl.
  - rewrite <- !app_assoc. apply Permutation_app_head.
    apply Permutation_app_comm.
  - rewrite IH. now rewrite app_assoc.
Qed.

Lemma group_append_nonempty key entry groups :
  Forall (fun g => g.2 <> []) groups ->
  Forall (fun g => g.2 <> []) (group_append key entry groups).
Proof.
  induction groups as [|[k g] groups IH]; simpl; intros H.
  - repeat constructor. discriminate.
  - apply Forall_cons in H as [Hg H].
    destruct (decide (k = key)); constructor; simpl; auto.
    intros Hnil. now apply app_eq_nil in Hnil as [_ ?].
Qed.

Lemma group_append_length key entry groups :
  length (group_append key entry groups) <= S (length groups).
Proof.
  induction groups as [|[k g] groups IH]; simpl; [lia|].
  destruct (decide (k = key)); simpl; lia.
Qed.

Lemma group_append_named (key_of : report -> string) key entry groups :
  key.1 = key_of entry ->
  Forall (fun g => Forall (fun e => g.1.1 = key_of e) g.2) groups ->
  Forall (fun g => Forall (fun e => g.1.1 = key_of e) g.2)
         (group_append key entry groups).
Proof.
  intros Hkey. induction groups as [|[k g] groups IH]; simpl; intros H.
  - repeat constructor. exact Hkey.
  - apply Forall_cons in H as [Hg H].
    destruct (decide (k = key)) as [->|Hne]; constructor; simpl; auto.
    apply Forall_app. split; [exact Hg|]. repeat constructor. exact Hkey.
Qed.

(** Grouping puts every listed document into exactly one group: the
    groups have distinct keys, none is empty, together they hold the
    documents of the listing and nothing else, and every document sits
    in the group named by its own lower-cased, stripped patient name.
    There are at most as many groups as documents. *)
Theorem group_by_patient_partitions env input_folder names :
  let entry_of filename :=
    let filepath := os_path_join env input_folder filename in
    let '(p_name, t_name, _) := extract_info_from_pdf env filepath in
    (filepath, p_name, t_name) in
  let groups := group_by_patient env input_folder names in
  NoDup (map fst groups)
  /\ Forall (fun g => g.2 <> []) groups
  /\ concat (map snd groups) ≡ₚ map entry_of names
  /\ Forall (fun g => Forall (fun e : report =>
                        g.1.1 = str_lower env (str_strip env e.1.2)) g.2)
            groups
  /\ length groups <= length names.
Proof.
  intros entry_of groups. unfold groups, group_by_patient.
  set (step := fun groups filename => _).
  assert (Hgen : forall names acc,
    NoDup (map fst acc) ->
    Forall (fun g => g.2 <> []) acc ->
    Forall (fun g => Forall (fun e : report =>
                      g.1.1 = str_lower env (str_strip env e.1.2)) g.2) acc ->
    NoDup (map fst (fold_left step names acc))
    /\ Forall (fun g => g.2 <> []) (fold_left step names acc)
    /\ concat (map snd (fold_left step names acc))
       ≡ₚ concat (map snd acc) ++ map entry_of names
    /\ Forall (fun g => Forall (fun e : report =>
                          g.1.1 = str_lower env (str_strip env e.1.2)) g.2)
              (fold_left step names acc)
    /\ length (fold_left step names acc) <= length acc + length names).
  { clear names groups. intros names.
    induction names as [|name names IH]; intros acc Hnd Hne Hnamed; simpl.
    - rewrite app_nil_r. repeat split; auto. lia.
    - set (key := (str_lower env (str_strip env (entry_of name).1.2),
                   str_strip env
                     (extract_info_from_pdf env
                        (os_path_join env input_folder name)).2)).
      assert (Hstep : step acc name = group_append key (entry_of name) acc).
      { unfold step, key, entry_of.
        destruct (extract_info_from_pdf env
                    (os_path_join env input_folder name)) as [[p t] age].
        reflexivity. }
      rewrite Hstep.
      destruct (IH (group_append key (entry_of name) acc))
        as (H1 & H2 & H3 & H4 & H5).
      + now apply group_append_keys.
      + now apply group_append_nonempty.
      + apply (group_append_named
                 (fun e => str_lower env (str_strip env e.1.2)));
          [reflexivity | exact Hnamed].
      + split; [exact H1|]. split; [exact H2|]. split; [|split].
        * rewrite H3, group_append_entries. now rewrite <- app_assoc.
        * exact H4.
        * pose proof (group_append_length key (entry_of name) acc). lia. }
  destruct (Hgen names []) as (H1 & H2 & H3 & H4 & H5);
    [constructor | constructor | constructor |].
  split; [exact H1|]. split; [exact H2|]. split; [exact H3|].
  split; [exact H4 | exact H5].
Qed.

(** *** Counting *)

Lemma process_file_counts env input_folder output_folder header_style
    add_cover rename remove_first_page names :
  forall count fs,
    (fold_left (process_file env input_folder output_folder header_style
                             add_cover rename remove_first_page)
               names (count, fs)).1 <= count + length names.
Proof.
  induction names as [|name names IH]; intros count fs; simpl; [lia|].
  destruct (apply_branding_to_pdf env fs _ output_folder header_style
              add_cover rename remove_first_page) as [[|] fs'].
  - specialize (IH (S count) fs'). lia.
  - specialize (IH count fs'). lia.
Qed.

Lemma process_group_counts env output_folder header_style h add_cover
    remove_first_page groups :
  forall success total fs,
    success <= total ->
    let result :=
      fold_left (process_group env output_folder header_style h add_cover
                               remove_first_page)
                groups (success, total, fs) in
    result.1.1 <= result.1.2 /\ result.1.2 = total + length groups.
Proof.
  induction groups as [|g groups IH]; intros success total fs Hle; simpl;
    [lia|].
  unfold process_group at 2.
  destruct (match g.2 with
            | [] => _
            | _ => _
            end) as [ok fs'].
  destruct (IH (if ok then S success else success) (S total) fs')
    as [H1 H2]; [destruct ok; lia|].
  split; [exact H1 | lia].
Qed.

(** [process_folder] never reports more successes than documents: in
    the normal mode the total is the number of PDF entries of the folder,
    in the merge mode it is the number of patient groups, which is at
    most that number.  A missing input folder gives (0, 0) and nothing
    is touched.  Otherwise the output folder is created when it is
    missing, also for an input folder without PDF entries, which gives
    (0, 0) and leaves the files as they are. *)
Theorem process_folder_counts env fs input_exists output_exists
    input_folder output_folder header_style add_cover rename
    remove_first_page merge_reports :
  let result :=
    process_folder env fs input_exists output_exists input_folder
                   output_folder header_style add_cover rename
                   remove_first_page merge_reports in
  let names := pdf_files env input_folder in
  let made := if output_exists then [] else [output_folder] in
  result.1.1.1 <= result.1.1.2
  /\ result.1.1.2 <= length names
  /\ (input_exists = false -> result = (0, 0, fs, []))
  /\ (input_exists = true -> result.2 = made)
  /\ (input_exists = true -> names = [] -> result = (0, 0, fs, made))
  /\ (input_exists = true -> merge_reports = false ->
      result.1.1.2 = length names)
  /\ (input_exists = true -> merge_reports = true -> names <> [] ->
      result.1.1.2 = length (group_by_patient env input_folder names)).
Proof.
  intros result names made. subst result names made. unfold process_folder.
  destruct input_exists; cbn [negb].
  2: { simpl. split; [lia|]. split; [lia|]. split; [reflexivity|].
       split; [discriminate|]. split; [discriminate|].
       split; discriminate. }
  destruct (pdf_files env input_folder) as [|n0 names'] eqn:Hnames.
  { simpl. split; [lia|]. split; [lia|]. split; [discriminate|].
    split; [reflexivity|]. split; [reflexivity|].
    split; [reflexivity|]. intros _ _ H. contradiction. }
  destruct merge_reports.
  - unfold merge_patient_reports. rewrite Hnames.
    destruct (process_group_counts env output_folder header_style
                (header_overlay_for env fs header_style) add_cover
                remove_first_page
                (group_by_patient env input_folder (n0 :: names')) 0 0 fs)
      as [H1 H2]; [lia|].
    destruct (group_by_patient_partitions env input_folder (n0 :: names'))
      as (_ & _ & _ & _ & H5).
    cbv zeta in H1, H2, H5. cbv beta iota zeta. cbn [fst snd].
    split; [exact H1|]. split; [rewrite H2; exact H5|].
    split; [discriminate|]. split; [reflexivity|].
    split; [discriminate|].
    split; [discriminate|]. intros _ _ _. exact H2.
  - pose proof (process_file_counts env input_folder output_folder
                  header_style add_cover rename remove_first_page
                  (n0 :: names') 0 fs) as Hc.
    destruct (fold_left (process_file env input_folder output_folder
                header_style add_cover rename remove_first_page)
                (n0 :: names') (0, fs)) as [count fs'].
    cbn [fst snd] in Hc |- *.
    split; [exact Hc|]. split; [lia|].
    split; [discriminate|]. split; [reflexivity|].
    split; [discriminate|].
    split; [reflexivity|]. discriminate.
Qed.

Lemma process_folder_counts_witness :
  process_folder Samples.env Samples.disk true false "empty" "out" "branded"
                 true true true false
  = (0, 0, Samples.disk, ["out"]).
Proof.
  destruct (process_folder_counts Samples.env Samples.disk true false
              "empty" "out" "branded" true true true false)
    as (_ & _ & _ & _ & Hempty & _).
  apply Hempty; reflexivity.
Defined.


(** *** The merged document in closed form *)

Lemma map_seq_nth_take_drop {B} (f : page -> B) (pages : list page) d a k :
  a + k <= length pages ->
  map (fun i => f (nth i pages d)) (seq a k) = map f (take k (drop a pages)).
Proof.
  intros Hk. apply list_eq. intros i. rewrite !lookup_map.
  destruct (decide (i < k)) as [Hlt|Hge].
  - rewrite lookup_seq_lt, lookup_take_lt, lookup_drop by lia. simpl.
    now rewrite (lookup_nth pages (a + i) d) by lia.
  - rewrite lookup_seq_ge, lookup_take_ge by lia. reflexivity.
Qed.

Lemma content_end_bounds start total :
  start < total ->
  start < content_end start total <= total
  /\ (content_end start total = total \/ content_end start total = total - 1).
Proof.
  intros H. unfold content_end.
  destruct (Nat.leb_spec (total - 1) start); lia.
Qed.

Lemma merge_report_closed fs h remove_first_page group_len idx path st pages :
  PdfReader fs path = Some pages ->
  exists st',
    merge_report fs h remove_first_page group_len idx path st = Some st'
    /\ writer (pdf st')
       = writer (pdf st) ++ content_of h remove_first_page pages
    /\ (idx <> group_len - 1 -> tc_page st' = tc_page st)
    /\ (idx = group_len - 1 -> tc_page st = None ->
        terminal_added st' = terminal_of h remove_first_page pages).
Proof.
  intros Hread. unfold merge_report. rewrite Hread.
  unfold open_reader.
  destruct (Nat.eqb_spec (length pages) 0) as [Hzero|Hpos].
  { eexists. split; [reflexivity|]. simpl.
    apply length_zero_iff_nil in Hzero. subst pages.
    unfold content_of, terminal_of, terminal_added. simpl.
    rewrite app_nil_r. repeat split; auto. intros _ ->. reflexivity. }
  set (n := length pages). set (a := start_page remove_first_page n).
  assert (Ha : a < n) by (apply start_page_lt; unfold n; lia).
  destruct (Nat.leb_spec n a) as [Hbad|_]; [lia|].
  destruct (content_end_bounds a n Ha) as [Hend Hcases].
  set (s := {| heap := heap (pdf st) ++ pages; writer := writer (pdf st) |}).
  destruct (page_loop (length (heap (pdf st))) (fun _ => with_header h)
              (merge_content_page h (length (heap (pdf st))))
              (fun s0 i p => merge_content_page_spec h _ s0 i p)
              (content_end a n - a) a s
              (fun i => nth i pages (Content "")))
    as (Hw & _ & Hin & Hout).
  { intros i Hi. simpl. rewrite lookup_app_r by lia.
    replace (length (heap (pdf st)) + i - length (heap (pdf st)))
      with i by lia.
    apply lookup_nth. fold n. lia. }
  eexists. split; [reflexivity|]. simpl. unfold range.
  split; [|split].
  - rewrite Hw. simpl. f_equal. unfold content_of. fold n a.
    apply map_seq_nth_take_drop. fold n. lia.
  - intros Hidx. apply Nat.eqb_neq in Hidx. now rewrite Hidx.
  - intros -> Htc. rewrite Nat.eqb_refl. cbn [andb].
    unfold terminal_added, terminal_of. fold n a.
    destruct (1 <? n) eqn:Hn; cbn [tc_page pdf heap];
      [|now rewrite Htc].
    apply Nat.ltb_lt in Hn.
    assert (Hlast : last pages = Some (nth (n - 1) pages (Content ""))).
    { rewrite last_lookup.
      replace (pred (length pages)) with (n - 1) by (unfold n; lia).
      apply lookup_nth. fold n. lia. }
    rewrite Hlast.
    destruct (Nat.eqb_spec (content_end a n) n) as [He|Hne].
    + rewrite Hin by lia. reflexivity.
    + rewrite Hout by lia. simpl. rewrite lookup_app_r by lia.
      replace (length (heap (pdf st)) + (n - 1) - length (heap (pdf st)))
        with (n - 1) by lia.
      rewrite (lookup_nth pages (n - 1) (Content "")) by (fold n; lia).
      reflexivity.
Qed.

Lemma merge_reports_front fs h remove_first_page group_len :
  forall items docs st,
    Forall2 (fun (it : nat * report) pages =>
               PdfReader fs it.2.1.1 = Some pages /\ it.1 <> group_len - 1)
            items docs ->
    exists st',
      merge_reports fs h remove_first_page group_len items st = Some st'
      /\ writer (pdf st')
         = writer (pdf st)
           ++ concat (map (content_of h remove_first_page) docs)
      /\ tc_page st' = tc_page st.
Proof.
  intros items docs st H. revert st.
  induction H as [|[idx [[path pn] tn]] pages items docs [Hread Hidx] _ IH];
    intros st; simpl.
  - exists st. rewrite app_nil_r. auto.
  - simpl in Hread, Hidx.
    destruct (merge_report_closed fs h remove_first_page group_len idx path
                st pages Hread) as (st1 & Hrun & Hw & Htc & _).
    rewrite Hrun. destruct (IH st1) as (st' & Hrun' & Hw' & Htc').
    exists st'. split; [exact Hrun'|]. split.
    + rewrite Hw', Hw. now rewrite <- app_assoc.
    + rewrite Htc'. now apply Htc.
Qed.

Lemma enumerate_from_bounds {A B} (P : A -> B -> Prop) (l : list A)
    (docs : list B) :
  Forall2 P l docs ->
  forall k,
    Forall2 (fun (it : nat * A) d => P it.2 d /\ it.1 < k + length l)
            (combine (seq k (length l)) l) docs.
Proof.
  induction 1 as [|x d l docs Hx _ IH]; intros k; simpl; constructor.
  - simpl. split; [exact Hx | lia].
  - eapply Forall2_impl; [apply (IH (S k))|].
    intros [i y] d' [Hp Hi]. simpl in *. split; [exact Hp | lia].
Qed.

(** The merge of a group whose reports can all be opened is the cover,
    then for each report its pages from the start index up to its content
    end, each after the header step, and last the terminal page of the
    last report if that report has more than one page.  The content end
    is the last page, unless that leaves nothing: then the last page is
    content too, and the terminal page repeats it with its overlay. *)
Theorem merged_pages_report_by_report env fs h add_cover remove_first_page
    (front : list report) (docs : list (list page)) last_report last_pages :
  Forall2 (fun (r : report) pages => PdfReader fs r.1.1 = Some pages)
          front docs ->
  PdfReader fs last_report.1.1 = Some last_pages ->
  merged_pages env fs h add_cover remove_first_page (front ++ [last_report])
  = Some (cover_pages env fs add_cover
          ++ concat (map (content_of h remove_first_page) docs)
          ++ content_of h remove_first_page last_pages
          ++ terminal_of h remove_first_page last_pages).
Proof.
  intros Hfront Hlast. unfold merged_pages.
  rewrite enumerate_snoc, merge_reports_app.
  set (glen := length (front ++ [last_report])).
  assert (Hglen : length front = glen - 1)
    by (unfold glen; rewrite length_app; simpl; lia).
  destruct (merge_reports_front fs h remove_first_page glen
              (enumerate front) docs
              {| pdf := add_cover_page env fs add_cover new_writer;
                 tc_page := None |}) as (st1 & Hrun1 & Hw1 & Htc1).
  { eapply Forall2_impl;
      [apply (enumerate_from_bounds _ _ _ Hfront 0)|].
    intros [i r] pages [Hr Hi]. simpl in *. split; [exact Hr | lia]. }
  rewrite Hrun1. simpl.
  destruct last_report as [[path pn] tn]. simpl in Hlast.
  rewrite Hglen.
  destruct (merge_report_closed fs h remove_first_page glen (glen - 1) path
              st1 last_pages Hlast) as (st2 & Hrun2 & Hw2 & _ & Htc2).
  rewrite Hrun2. f_equal.
  specialize (Htc2 eq_refl Htc1). simpl in Hw1. unfold cover_pages.
  transitivity (writer (pdf st2) ++ terminal_added st2).
  { unfold terminal_added.
    destruct (tc_page st2) as [loc|]; [|now rewrite app_nil_r].
    unfold add_page.
    destruct (heap (pdf st2) !! loc); [reflexivity | now rewrite app_nil_r]. }
  rewrite Htc2, Hw2, Hw1. now rewrite <- !app_assoc.
Qed.

Lemma merged_pages_report_by_report_witness :
  merged_pages Samples.env Samples.disk (Some Samples.header_page) true false
               [Samples.report_a; Samples.report_c]
  = Some [Samples.cover_page;
          merge_page (Content "a0") Samples.header_page;
          merge_page (Content "a1") Samples.header_page;
          merge_page (Content "c0") Samples.header_page;
          Content "c1"].
Proof.
  etransitivity.
  - apply (merged_pages_report_by_report Samples.env Samples.disk
             (Some Samples.header_page) true false [Samples.report_a]
             [Samples.doc_a] Samples.report_c Samples.doc_c).
    + repeat constructor.
    + reflexivity.
  - vm_compute. reflexivity.
Defined.

End ComposeMore.

(** * Properties of the first folder script *)

Module RebrandFolderFacts.
Import Pdf RebrandFolder.

Lemma first_version_brand_page_spec h total first s i p :
  heap s !! (first + i) = Some p ->
  brand_page h total first s i
  = {| heap := <[first + i :=
                   if (i =? total - 1) then p else with_header h p]> (heap s);
       writer := writer s
                 ++ [if (i =? total - 1) then p else with_header h p] |}.
Proof.
  intros H. unfold brand_page, with_header.
  destruct (i =? total - 1); [|destruct h].
  - now apply ComposeFacts.add_unmerged.
  - now apply ComposeFacts.merge_then_add.
  - now apply ComposeFacts.add_unmerged.
Qed.

Lemma first_version_try_branding_pages env fs input_path output_path pages :
  PdfReader fs input_path = Some pages -> pages <> [] ->
  try_branding env fs input_path output_path
  = if can_write env output_path then
      Some (true,
            <[output_path :=
                PdfFile (RebrandFolderApp.branded_pages env fs "branded"
                           true true pages)]> fs)
    else None.
Proof.
  intros Hread Hne. unfold try_branding. rewrite Hread.
  destruct (Nat.eqb_spec (length pages) 0) as [Hz|Hnz].
  { apply length_zero_iff_nil in Hz. contradiction. }
  unfold open_reader, new_writer. simpl.
  set (h := create_header_overlay env fs (LEFT_LOGO env) (RIGHT_LOGO env)).
  set (n := length pages).
  set (a := if 1 <? n then 1 else 0).
  set (s := match create_cover_page env fs (COVER_IMAGE env) with
            | Some c => add_fresh_page c _
            | None => _
            end).
  assert (Hs : heap s = pages
               /\ writer s = RebrandFolderApp.cover_pages env fs true).
  { unfold s, RebrandFolderApp.cover_pages, RebrandFolderApp.add_cover_page.
    change (RebrandFolderApp.create_cover_page env fs
              (RebrandFolderApp.COVER_IMAGE env))
      with (create_cover_page env fs (COVER_IMAGE env)).
    destruct (create_cover_page env fs (COVER_IMAGE env)); now split. }
  destruct Hs as [Hheap Hwriter].
  assert (Ha : a < n).
  { unfold a. destruct (Nat.ltb_spec 1 n); lia. }
  destruct (ComposeFacts.page_loop 0
              (fun i p => if (i =? n - 1) then p else with_header h p)
              (brand_page h n 0) (first_version_brand_page_spec h n 0)
              (n - a) a s (fun i => nth i pages (Content "")))
    as (Hw & _).
  { intros i Hi. simpl. rewrite Hheap. apply ComposeFacts.lookup_nth.
    fold n. lia. }
  rewrite Hw, Hwriter.
  destruct (can_write env output_path); [|reflexivity].
  do 4 f_equal.
  unfold RebrandFolderApp.branded_pages, RebrandFolderApp.range. f_equal.
  fold n. change (RebrandFolderApp.start_page true n) with a.
  apply map_ext_in. intros i Hi. apply in_seq in Hi.
  unfold RebrandFolderApp.branded.
  change (RebrandFolderApp.header_overlay_for env fs "branded") with h.
  destruct (Nat.eqb_spec i (n - 1)) as [->|Hne'].
  - now rewrite Nat.ltb_irrefl.
  - destruct (Nat.ltb_spec i (n - 1)); [reflexivity | lia].
Qed.

(** With the cover image in place, the first version of the folder
    script writes, for a readable source with at least one page, the
    same pages as [apply_branding_to_pdf] of the application does with the
    branded header, the cover and the first-page removal switched on. *)
Theorem first_version_brands_like_app env fs input_path output_path pages :
  os_path_exists fs (COVER_IMAGE env) = true ->
  PdfReader fs input_path = Some pages -> pages <> [] ->
  can_write env output_path = true ->
  apply_branding_to_pdf env fs input_path output_path
  = (true,
     <[output_path :=
         PdfFile (RebrandFolderApp.branded_pages env fs "branded" true true
                    pages)]> fs)
  /\ forall output_dir,
       os_path_join env output_dir
         (RebrandFolderApp.single_output_filename env false input_path)
       = output_path ->
       RebrandFolderApp.apply_branding_to_pdf env fs input_path output_dir
         "branded" true false true
       = apply_branding_to_pdf env fs input_path output_path.
Proof.
  intros Hcover Hread Hne Hw.
  assert (Hrun : apply_branding_to_pdf env fs input_path output_path
                 = (true,
                    <[output_path :=
                        PdfFile (RebrandFolderApp.branded_pages env fs
                                   "branded" true true pages)]> fs)).
  { unfold apply_branding_to_pdf. rewrite Hcover. simpl.
    rewrite (first_version_try_branding_pages _ _ _ _ pages Hread Hne), Hw.
    reflexivity. }
  split; [exact Hrun|]. intros output_dir Hpath. rewrite Hrun.
  rewrite (ComposeFacts.apply_branding_to_pdf_closed _ _ _ _ _ _ _ _ pages
             Hread Hne).
  cbv zeta. rewrite Hpath, Hw. reflexivity.
Qed.

Lemma first_version_brands_like_app_witness :
  apply_branding_to_pdf Samples.env Samples.disk "in/a.pdf" "out/a.pdf"
  = (true,
     <["out/a.pdf" :=
         PdfFile [Samples.cover_page;
                  merge_page (Content "a1") Samples.header_page;
                  Content "a2"]]> Samples.disk).
Proof.
  destruct (first_version_brands_like_app Samples.env Samples.disk "in/a.pdf"
              "out/a.pdf" Samples.doc_a eq_refl eq_refl ltac:(discriminate)
              eq_refl) as [Hrun _].
  rewrite Hrun. do 3 f_equal.
Defined.

(** When the cover image is missing or the source cannot be opened, the
    first version answers [False] and, the source being on disk and the
    target writable, leaves a copy of the source at the output path.  A
    document without pages is answered with [False] too, but nothing is
    copied for it. *)
Theorem first_version_falls_back_to_copy env fs input_path output_path f :
  fs !! input_path = Some f -> can_write env output_path = true ->
  (os_path_exists fs (COVER_IMAGE env) = false
   \/ PdfReader fs input_path = None ->
   apply_branding_to_pdf env fs input_path output_path
   = (false, <[output_path := f]> fs))
  /\ (os_path_exists fs (COVER_IMAGE env) = true ->
      PdfReader fs input_path = Some [] ->
      apply_branding_to_pdf env fs input_path output_path = (false, fs)).
Proof.
  intros Hsrc Hw.
  assert (Hcopy : copy_quietly env input_path output_path fs
                  = <[output_path := f]> fs).
  { unfold copy_quietly, shutil_copy. rewrite Hsrc.
    case_bool_decide as Heq; [|now rewrite Hw].
    subst output_path. symmetry. now apply insert_id. }
  unfold apply_branding_to_pdf. split.
  - intros [Hcover|Hread].
    + rewrite Hcover. simpl. now rewrite Hcopy.
    + destruct (os_path_exists fs (COVER_IMAGE env)); simpl;
        [|now rewrite Hcopy].
      unfold try_branding. rewrite Hread. now rewrite Hcopy.
  - intros Hcover Hread. rewrite Hcover. simpl.
    unfold try_branding. now rewrite Hread.
Qed.

Lemma first_version_falls_back_to_copy_witness :
  Samples.disk !! "other/broken.pdf" = Some (DataFile "<html>")
  /\ apply_branding_to_pdf Samples.env Samples.disk "other/broken.pdf"
       "out/broken.pdf"
     = (false, <["out/broken.pdf" := DataFile "<html>"]> Samples.disk).
Proof.
  split; [reflexivity|].
  destruct (first_version_falls_back_to_copy Samples.env Samples.disk
              "other/broken.pdf" "out/broken.pdf" (DataFile "<html>")
              eq_refl eq_refl) as [Hcopy _].
  apply Hcopy. right. vm_compute. reflexivity.
Defined.

End RebrandFolderFacts.

(** * Properties of the producer's watermark *)

Module ProducerFacts.
Import Producer.
Local Open Scope Z_scope.

Lemma elem_of_new_uids last_uid found u :
  u ∈ new_uids last_uid found <-> u ∈ found /\ last_uid < u.
Proof.
  unfold new_uids. rewrite merge_sort_Permutation.
  rewrite !list_elem_of_In, filter_In, Z.ltb_lt. reflexivity.
Qed.

Section Scan.
Variable W : Type.
Variable process_email : Z -> W -> bool * W.
Variable ok : Z -> bool.
Hypothesis process_email_ok : forall uid w, (process_email uid w).1 = ok uid.

Lemma scan_fold uids : forall (state : gmap string Z) w cur,
  state !! "last_processed_uid" = Some cur ->
  StronglySorted Z.le uids ->
  (forall u, u ∈ uids -> cur <= u) ->
  exists last',
    (fold_left (scan_step W process_email) uids (state, w)).1
      !! "last_processed_uid" = Some last'
    /\ (forall k, k <> "last_processed_uid" ->
          (fold_left (scan_step W process_email) uids (state, w)).1 !! k
          = state !! k)
    /\ cur <= last'
    /\ (last' = cur \/ (last' ∈ uids /\ ok last' = true))
    /\ (forall u, u ∈ uids -> ok u = true -> u <= last').
Proof.
  induction uids as [|uid uids IH]; intros state w cur Hcur Hsorted Hlow.
  - exists cur. simpl. repeat split; auto; try lia.
    intros u Hu. now apply elem_of_nil in Hu.
  - apply StronglySorted_inv in Hsorted as [Hsorted Hle].
    rewrite Forall_forall in Hle.
    simpl. unfold scan_step at 2.
    pose proof (process_email_ok uid w) as Hok.
    destruct (process_email uid w) as [b w']. simpl in Hok. subst b.
    assert (Huid : cur <= uid) by (apply Hlow; left).
    destruct (ok uid) eqn:Hokuid.
    + destruct (IH (<["last_processed_uid" := uid]> state) w' uid)
        as (last' & Hl & Hk & Hge & Hwhich & Hmax).
      * apply lookup_insert_eq.
      * exact Hsorted.
      * intros u Hu. now apply Hle.
      * exists last'. split; [exact Hl|]. split; [|split; [lia|split]].
        -- intros k Hne. rewrite Hk by exact Hne.
           now rewrite lookup_insert_ne by congruence.
        -- right. destruct Hwhich as [->|[Hin Hok']].
           ++ split; [left | exact Hokuid].
           ++ split; [now right | exact Hok'].
        -- intros u Hu Hoku. apply elem_of_cons in Hu as [->|Hu];
             [exact Hge | now apply Hmax].
    + destruct (IH state w' cur Hcur Hsorted)
        as (last' & Hl & Hk & Hge & Hwhich & Hmax).
      * intros u Hu. apply Hlow. now right.
      * exists last'. split; [exact Hl|]. split; [exact Hk|].
        split; [exact Hge|]. split.
        -- destruct Hwhich as [->|[Hin Hok']]; [now left|].
           right. split; [now right | exact Hok'].
        -- intros u Hu Hoku. apply elem_of_cons in Hu as [->|Hu];
             [congruence | now apply Hmax].
Qed.

(** One pass over the mailbox moves the watermark to the largest new
    UID that was processed, and leaves it where it was when none was; it
    never moves back and no other key of the state changes.  A message
    that failed below a later success is therefore behind the watermark:
    the next search starts above it.  Without the watermark key the pass
    raises at once. *)
Theorem scan_mailbox_moves_watermark found (state : gmap string Z) w last :
  state !! "last_processed_uid" = Some last ->
  exists state' w' last',
    scan_mailbox W process_email found state w = Some (state', w')
    /\ state' !! "last_processed_uid" = Some last'
    /\ last <= last'
    /\ (forall k, k <> "last_processed_uid" -> state' !! k = state !! k)
    /\ (last' = last
        \/ (last' ∈ found /\ last < last' /\ ok last' = true))
    /\ (forall u, u ∈ found -> last < u -> ok u = true -> u <= last')
    /\ (forall u, u ∈ found -> last < u -> u < last' ->
          u ∉ new_uids last' found).
Proof.
  intros Hlast. unfold scan_mailbox. rewrite Hlast.
  destruct (scan_fold (new_uids last found) state w last Hlast)
    as (last' & Hl & Hk & Hge & Hwhich & Hmax).
  { apply StronglySorted_merge_sort; apply _. }
  { intros u Hu. apply elem_of_new_uids in Hu. lia. }
  destruct (fold_left (scan_step W process_email) (new_uids last found)
              (state, w)) as [state' w'] eqn:Hfold.
  simpl in Hl, Hk. exists state', w', last'.
  split; [reflexivity|]. split; [exact Hl|]. split; [exact Hge|].
  split; [exact Hk|]. split; [|split].
  - destruct Hwhich as [->|[Hin Hok]]; [now left|].
    apply elem_of_new_uids in Hin as [Hin Hlt]. right. auto.
  - intros u Hu Hlt Hoku. apply Hmax; [|exact Hoku].
    apply elem_of_new_uids. now split.
  - intros u Hu Hlt Hbelow Hin. apply elem_of_new_uids in Hin. lia.
Qed.

End Scan.

Lemma scan_mailbox_moves_watermark_witness :
  Samples.mail_state !! "last_processed_uid" = Some 10
  /\ exists state' w',
       scan_mailbox (list Z) Samples.mailbox_step [13; 11; 12; 9]
                    Samples.mail_state [] = Some (state', w')
       /\ state' !! "last_processed_uid" = Some 13.
Proof.
  split; [reflexivity|].
  assert (Hok : forall uid w,
            (Samples.mailbox_step uid w).1 = negb (uid =? 12)).
  { intros uid w. unfold Samples.mailbox_step.
    destruct (uid =? 12); reflexivity. }
  destruct (scan_mailbox_moves_watermark (list Z) Samples.mailbox_step
              (fun uid => negb (uid =? 12)) Hok
              [13; 11; 12; 9] Samples.mail_state [] 10 eq_refl)
    as (state' & w' & last' & Hrun & Hl & _ & _ & Hwhich & Hmax & _).
  exists state', w'. split; [exact Hrun|]. rewrite Hl. f_equal.
  assert (H13 : 13 <= last')
    by (apply Hmax; [left | lia | reflexivity]).
  destruct Hwhich as [->|(Hin & _ & _)]; [lia|].
  repeat (apply elem_of_cons in Hin as [->|Hin]; [lia|]).
  now apply elem_of_nil in Hin.
Defined.

End ProducerFacts.

(** * Properties of the upload names *)

Module WebAppFacts.
Import WebApp.

Lemma replace_char_chars old new s :
  String.list_ascii_of_string (replace_char old new s)
  = map (fun c => if (Ascii.nat_of_ascii c =? old)%nat
                  then Ascii.ascii_of_nat new else c)
        (String.list_ascii_of_string s).
Proof. induction s as [|c s IH]; simpl; [reflexivity | now rewrite IH]. Qed.

Lemma replace_char_length old new s :
  String.length (replace_char old new s) = String.length s.
Proof. induction s as [|c s IH]; simpl; [reflexivity | now rewrite IH]. Qed.

Lemma replace_char_absent old new s :
  (forall c, In c (String.list_ascii_of_string s) ->
             Ascii.nat_of_ascii c <> old) ->
  replace_char old new s = s.
Proof.
  induction s as [|c s IH]; simpl; intros H; [reflexivity|].
  destruct (Nat.eqb_spec (Ascii.nat_of_ascii c) old) as [He|_].
  - exfalso. apply (H c); [now left | exact He].
  - f_equal. apply IH. intros c' Hc'. apply H. now right.
Qed.

(** The name an upload is saved under holds neither a slash nor a
    backslash, is as long as the name sent, and is the name sent when
    that one holds no such character.  Only uploads named like a PDF are
    saved, each under its safe name in the input directory: no other path
    of the disk changes. *)
Theorem uploads_are_saved_under_safe_names env input_dir uploads fs
    filename :
  (forall c, In c (String.list_ascii_of_string (safe_name filename)) ->
     Ascii.nat_of_ascii c <> 47 /\ Ascii.nat_of_ascii c <> 92)
  /\ String.length (safe_name filename) = String.length filename
  /\ ((forall c, In c (String.list_ascii_of_string filename) ->
         Ascii.nat_of_ascii c <> 47 /\ Ascii.nat_of_ascii c <> 92) ->
      safe_name filename = filename)
  /\ (forall path,
        save_uploads env input_dir uploads fs !! path <> fs !! path ->
        exists f,
          f ∈ uploads
          /\ RebrandFolderApp.ends_with ".pdf" (Pdf.str_lower env f.1) = true
          /\ path = Pdf.os_path_join env input_dir (safe_name f.1)).
Proof.
  split; [|split; [|split]].
  - intros c. unfold safe_name. rewrite !replace_char_chars, map_map.
    rewrite in_map_iff. intros (c0 & <- & _).
    destruct (Nat.eqb_spec (Ascii.nat_of_ascii c0) 47) as [H47|H47].
    + vm_compute. split; discriminate.
    + destruct (Nat.eqb_spec (Ascii.nat_of_ascii c0) 92) as [H92|H92].
      * vm_compute. split; discriminate.
      * split; assumption.
  - unfold safe_name. now rewrite !replace_char_length.
  - intros H. unfold safe_name.
    rewrite (replace_char_absent 47) by (intros c Hc; apply (H c Hc)).
    apply replace_char_absent. intros c Hc. apply (H c Hc).
  - unfold save_uploads. revert fs.
    induction uploads as [|f uploads IH]; intros fs path; simpl.
    + intros H. contradiction.
    + intros H.
      destruct (RebrandFolderApp.ends_with ".pdf" (Pdf.str_lower env f.1))
        eqn:Hpdf.
      * destruct (decide (path
                          = Pdf.os_path_join env input_dir (safe_name f.1)))
          as [->|Hne].
        -- exists f. split; [left|]. split; [exact Hpdf | reflexivity].
        -- destruct (IH (<[Pdf.os_path_join env input_dir (safe_name f.1)
                            := f.2]> fs) path) as (f' & Hin & Hp & Hpath).
           ++ intros Heq. apply H. rewrite Heq.
              now rewrite lookup_insert_ne by congruence.
           ++ exists f'. split; [now right|]. now split.
      * destruct (IH fs path H) as (f' & Hin & Hp & Hpath).
        exists f'. split; [now right|]. now split.
Qed.

End WebAppFacts.

(** * Finished jobs *)

Module QueueLifecycle.
Import QueueDB QueueFacts.
Local Open Scope Z_scope.

Lemma unique_id_same_row db r1 r2 :
  NoDup (map id db) -> r1 ∈ db -> r2 ∈ db -> id r1 = id r2 -> r1 = r2.
Proof.
  induction db as [|r db IH]; simpl; intros Hnd H1 H2 Hid.
  - now apply elem_of_nil in H1.
  - apply NoDup_cons in Hnd as [Hr Hnd].
    assert (Hmap : forall x, x ∈ db -> id x ∈ map id db).
    { intros x Hx. apply list_elem_of_In, in_map, list_elem_of_In, Hx. }
    apply elem_of_cons in H1 as [->|H1]; apply elem_of_cons in H2 as [->|H2].
    + reflexivity.
    + exfalso. apply Hr. rewrite Hid. now apply Hmap.
    + exfalso. apply Hr. rewrite <- Hid. now apply Hmap.
    + now apply IH.
Qed.

(** With ids unique, as the primary key makes them, a job that is
    [completed] or [failed] survives a round of the worker loop as it is:
    the sweep of stuck jobs followed by a claim leaves its row unchanged,
    and the job claimed is never that one. *)
Theorem finished_jobs_stay now timeout_minutes (db : table) i r :
  NoDup (map id db) -> db !! i = Some r ->
  status r = completed \/ status r = failed ->
  let round := get_next_job now (reset_stuck_jobs now timeout_minutes db) in
  round.2 !! i = Some r
  /\ forall d, round.1 = Some d -> d_id d <> id r.
Proof.
  intros Hnd Hi Hdone round.
  assert (Hnot : status r <> processing /\ status r <> pending).
  { split; intros Hp; rewrite Hp in Hdone; destruct Hdone; discriminate. }
  destruct Hnot as [Hnproc Hnpend].
  set (db1 := reset_stuck_jobs now timeout_minutes db) in *.
  assert (Hi1 : db1 !! i = Some r).
  { unfold db1, reset_stuck_jobs. rewrite sql_update_lookup.
    rewrite Hi. simpl. unfold stuck.
    now rewrite bool_decide_false. }
  assert (Hnd1 : NoDup (map id db1)).
  { unfold db1, reset_stuck_jobs. now rewrite sql_update_ids. }
  assert (Hin : r ∈ db1) by (eapply list_elem_of_lookup_2, Hi1).
  unfold round, get_next_job.
  destruct (oldest (List.filter (claimable now) db1)) as [row|] eqn:Hsel;
    cbn [fst snd].
  - apply oldest_elem, elem_of_filter_claimable in Hsel as [Hrow [Hp _]].
    assert (Hne : id r <> id row).
    { intros Hid.
      rewrite (unique_id_same_row db1 r row Hnd1 Hin Hrow Hid) in Hnpend.
      contradiction. }
    split.
    + rewrite sql_update_lookup, Hi1. simpl.
      apply Z.eqb_neq in Hne. now rewrite Hne.
    + intros d [= <-]. simpl. congruence.
  - split; [exact Hi1|discriminate].
Qed.

Lemma finished_jobs_stay_witness :
  Samples.finished_queue !! 1%nat = Some (Samples.row 2 20 completed 0 60)
  /\ (get_next_job 1000 (reset_stuck_jobs 1000 10 Samples.finished_queue)).2
     !! 1%nat
     = Some (Samples.row 2 20 completed 0 60).
Proof.
  split; [reflexivity|].
  apply (finished_jobs_stay 1000 10 Samples.finished_queue 1).
  - apply (bool_decide_unpack _). vm_compute. exact I.
  - reflexivity.
  - now left.
Defined.

End QueueLifecycle.

(** * Merge mode without shared patients *)

Module MergeModeFacts.
Import Pdf RebrandFolderApp ComposeFacts ComposeMore.

Lemma group_append_fresh key entry groups :
  key ∉ map fst groups ->
  group_append key entry groups = groups ++ [(key, [entry])].
Proof.
  induction groups as [|[k g] groups IH]; simpl; intros H; [reflexivity|].
  apply not_elem_of_cons in H as [Hne H].
  destruct (decide (k = key)) as [->|_]; [contradiction|].
  now rewrite IH.
Qed.

Section Solo.
Variable env : Env.
Variable input_folder : string.

Lemma group_by_patient_solo names :
  NoDup (map (key_of env input_folder) names) ->
  group_by_patient env input_folder names
  = map (fun name => (key_of env input_folder name,
                     [entry_of env input_folder name])) names.
Proof.
  unfold group_by_patient. set (step := fun groups filename => _).
  assert (Hstep : forall acc name,
            step acc name
            = group_append (key_of env input_folder name)
                           (entry_of env input_folder name) acc).
  { intros acc name. unfold step, key_of, entry_of.
    destruct (extract_info_from_pdf env
                (os_path_join env input_folder name)) as [[p t] age].
    reflexivity. }
  assert (Hgen : forall names acc,
    NoDup (map fst acc ++ map (key_of env input_folder) names) ->
    fold_left step names acc
    = acc ++ map (fun name => (key_of env input_folder name,
                     [entry_of env input_folder name])) names).
  { clear names. intros names.
    induction names as [|name names IH]; intros acc Hnd; simpl.
    - now rewrite app_nil_r.
    - rewrite Hstep, group_append_fresh.
      + rewrite IH; [now rewrite <- app_assoc|].
        rewrite map_app. simpl. now rewrite <- app_assoc.
      + apply NoDup_app in Hnd as (_ & Hdis & _).
        intros Hin. apply (Hdis _ Hin). left. }
  intros Hnd. now rewrite (Hgen names []).
Qed.

Lemma process_groups_solo output_folder header_style h add_cover
    remove_first_page names :
  forall success total fs,
    fold_left (process_group env output_folder header_style h add_cover
                             remove_first_page)
              (map (fun name => (key_of env input_folder name,
                     [entry_of env input_folder name])) names)
              (success, total, fs)
    = let result :=
        fold_left (process_file env input_folder output_folder header_style
                                add_cover true remove_first_page)
                  names (success, fs) in
      (result.1, total + length names, result.2).
Proof.
  induction names as [|name names IH]; intros success total fs; simpl.
  - f_equal. f_equal. lia.
  - unfold entry_of at 2.
    destruct (extract_info_from_pdf env
                (os_path_join env input_folder name)) as [[p t] age].
    destruct (apply_branding_to_pdf env fs
                (os_path_join env input_folder name) output_folder
                header_style add_cover true remove_first_page) as [ok fs'].
    rewrite IH. simpl. f_equal. f_equal. lia.
Qed.

(** When no two documents of the folder share a patient key, the merge
    mode does what the normal mode does with renaming on: the same
    counts, the same files and the same folder created. *)
Theorem merge_mode_without_shared_patients fs output_exists output_folder
    header_style add_cover remove_first_page :
  NoDup (map (key_of env input_folder) (pdf_files env input_folder)) ->
  process_folder env fs true output_exists input_folder output_folder
                 header_style add_cover true remove_first_page true
  = process_folder env fs true output_exists input_folder output_folder
                   header_style add_cover true remove_first_page false.
Proof.
  intros Hnd. unfold process_folder. simpl.
  destruct (pdf_files env input_folder) as [|n0 names] eqn:Hnames;
    [reflexivity|].
  unfold merge_patient_reports. rewrite Hnames.
  rewrite group_by_patient_solo by exact Hnd.
  rewrite process_groups_solo. cbv zeta.
  destruct (fold_left _ (n0 :: names) (0, fs)) as [count fs'].
  reflexivity.
Qed.

End Solo.

Lemma merge_mode_without_shared_patients_witness :
  process_folder Samples.env_solo Samples.disk true false "other" "out"
                 "branded" true true true true
  = process_folder Samples.env_solo Samples.disk true false "other" "out"
                   "branded" true true true false.
Proof.
  apply (merge_mode_without_shared_patients Samples.env_solo "other").
  apply (bool_decide_unpack _). vm_compute. exact I.
Defined.

End MergeModeFacts.
